(** * The 8085 core of lezwon/8085simulator, embedded in Rocq

    The class [CPU8085] (registers, flags, a 64KB memory, 256 I/O ports and a
    halted bit) is embedded shallowly: the object is a record, a method that
    mutates [this] is a function from the record to the new record, and a
    method that mutates [this] and also returns a number returns a pair.
    JavaScript numbers that hold integers are [Z]; the bit operators [&], [|],
    [^], [~], [<<] and [>>] are [Z.land], [Z.lor], [Z.lxor], [Z.lnot],
    [Z.shiftl] and [Z.shiftr]: JavaScript computes them on 32-bit two's
    complement integers, and in every state the application can reach the
    registers are bytes and the pointers 16-bit words ([reachable_wf]), so
    every intermediate value fits and the two readings agree.

    Part I holds the definitions: the data model and the methods of the
    class, the states the application can reach, the invariant, the
    vocabulary of the properties and the concrete states used as examples.
    Part II holds the lemmas and the theorems, one section per property. *)

From Stdlib Require Import ZArith List Bool Lia.
From stdpp Require Import base option gmap.
Import ListNotations.
Local Open Scope Z_scope.

(** * Part I: definitions *)

(** ** Data model (types.ts) *)

Module Registers.
Record t : Type := mk
  { A : Z; B : Z; C : Z; D : Z; E : Z; H : Z; L : Z; SP : Z; PC : Z }.
End Registers.

Module Flags.
Record t : Type := mk
  { S : bool; Z : bool; AC : bool; P : bool; CY : bool }.
End Flags.

(** A [Uint8Array]: created zero-filled, so an index that was never written
    reads as 0; a store keeps the low 8 bits of the value and is dropped when
    the index is outside the array. The simulator only reads at indices
    inside the array: a memory address is masked to 16 bits first, and a
    port number is a byte read from memory. *)
Abbreviation Uint8Array := (gmap Z Z) (only parsing).

Definition u8_get (arr : Uint8Array) (i : Z) : Z := default 0 (arr !! i).

Definition u8_set (len : Z) (arr : Uint8Array) (i v : Z) : Uint8Array :=
  if (0 <=? i) && (i <? len) then <[ i := v mod 256 ]> arr else arr.

Record CPU8085 : Type := mkCPU
  { registers : Registers.t;
    flags : Flags.t;
    memory : Uint8Array;
    halted : bool;
    ioPorts : Uint8Array }.

Definition MEMORY_SIZE : Z := 65536.
Definition IO_SIZE : Z := 256.

(** *** Field reads [this.registers.X], [this.flags.X] *)

Definition reg_A (s : CPU8085) : Z := Registers.A (registers s).
Definition reg_B (s : CPU8085) : Z := Registers.B (registers s).
Definition reg_C (s : CPU8085) : Z := Registers.C (registers s).
Definition reg_D (s : CPU8085) : Z := Registers.D (registers s).
Definition reg_E (s : CPU8085) : Z := Registers.E (registers s).
Definition reg_H (s : CPU8085) : Z := Registers.H (registers s).
Definition reg_L (s : CPU8085) : Z := Registers.L (registers s).
Definition reg_SP (s : CPU8085) : Z := Registers.SP (registers s).
Definition reg_PC (s : CPU8085) : Z := Registers.PC (registers s).

Definition flag_S (s : CPU8085) : bool := Flags.S (flags s).
Definition flag_Z (s : CPU8085) : bool := Flags.Z (flags s).
Definition flag_AC (s : CPU8085) : bool := Flags.AC (flags s).
Definition flag_P (s : CPU8085) : bool := Flags.P (flags s).
Definition flag_CY (s : CPU8085) : bool := Flags.CY (flags s).

(** *** Field writes [this.registers.X = v], [this.flags.X = b] *)

Definition with_registers (r : Registers.t) (s : CPU8085) : CPU8085 :=
  mkCPU r (flags s) (memory s) (halted s) (ioPorts s).
Definition with_flags (f : Flags.t) (s : CPU8085) : CPU8085 :=
  mkCPU (registers s) f (memory s) (halted s) (ioPorts s).
Definition with_memory (m : Uint8Array) (s : CPU8085) : CPU8085 :=
  mkCPU (registers s) (flags s) m (halted s) (ioPorts s).
Definition with_halted (h : bool) (s : CPU8085) : CPU8085 :=
  mkCPU (registers s) (flags s) (memory s) h (ioPorts s).
Definition with_ioPorts (p : Uint8Array) (s : CPU8085) : CPU8085 :=
  mkCPU (registers s) (flags s) (memory s) (halted s) p.

Definition set_A (v : Z) (s : CPU8085) : CPU8085 :=
  let r := registers s in
  with_registers (Registers.mk v (Registers.B r) (Registers.C r) (Registers.D r)
    (Registers.E r) (Registers.H r) (Registers.L r) (Registers.SP r) (Registers.PC r)) s.
Definition set_B (v : Z) (s : CPU8085) : CPU8085 :=
  let r := registers s in
  with_registers (Registers.mk (Registers.A r) v (Registers.C r) (Registers.D r)
    (Registers.E r) (Registers.H r) (Registers.L r) (Registers.SP r) (Registers.PC r)) s.
Definition set_C (v : Z) (s : CPU8085) : CPU8085 :=
  let r := registers s in
  with_registers (Registers.mk (Registers.A r) (Registers.B r) v (Registers.D r)
    (Registers.E r) (Registers.H r) (Registers.L r) (Registers.SP r) (Registers.PC r)) s.
Definition set_D (v : Z) (s : CPU8085) : CPU8085 :=
  let r := registers s in
  with_registers (Registers.mk (Registers.A r) (Registers.B r) (Registers.C r) v
    (Registers.E r) (Registers.H r) (Registers.L r) (Registers.SP r) (Registers.PC r)) s.
Definition set_E (v : Z) (s : CPU8085) : CPU8085 :=
  let r := registers s in
  with_registers (Registers.mk (Registers.A r) (Registers.B r) (Registers.C r) (Registers.D r)
    v (Registers.H r) (Registers.L r) (Registers.SP r) (Registers.PC r)) s.
Definition set_H (v : Z) (s : CPU8085) : CPU8085 :=
  let r := registers s in
  with_registers (Registers.mk (Registers.A r) (Registers.B r) (Registers.C r) (Registers.D r)
    (Registers.E r) v (Registers.L r) (Registers.SP r) (Registers.PC r)) s.
Definition set_L (v : Z) (s : CPU8085) : CPU8085 :=
  let r := registers s in
  with_registers (Registers.mk (Registers.A r) (Registers.B r) (Registers.C r) (Registers.D r)
    (Registers.E r) (Registers.H r) v (Registers.SP r) (Registers.PC r)) s.
Definition set_SP (v : Z) (s : CPU8085) : CPU8085 :=
  let r := registers s in
  with_registers (Registers.mk (Registers.A r) (Registers.B r) (Registers.C r) (Registers.D r)
    (Registers.E r) (Registers.H r) (Registers.L r) v (Registers.PC r)) s.
Definition set_PC (v : Z) (s : CPU8085) : CPU8085 :=
  let r := registers s in
  with_registers (Registers.mk (Registers.A r) (Registers.B r) (Registers.C r) (Registers.D r)
    (Registers.E r) (Registers.H r) (Registers.L r) (Registers.SP r) v) s.

Definition set_S (b : bool) (s : CPU8085) : CPU8085 :=
  let f := flags s in
  with_flags (Flags.mk b (Flags.Z f) (Flags.AC f) (Flags.P f) (Flags.CY f)) s.
Definition set_Z (b : bool) (s : CPU8085) : CPU8085 :=
  let f := flags s in
  with_flags (Flags.mk (Flags.S f) b (Flags.AC f) (Flags.P f) (Flags.CY f)) s.
Definition set_AC (b : bool) (s : CPU8085) : CPU8085 :=
  let f := flags s in
  with_flags (Flags.mk (Flags.S f) (Flags.Z f) b (Flags.P f) (Flags.CY f)) s.
Definition set_P (b : bool) (s : CPU8085) : CPU8085 :=
  let f := flags s in
  with_flags (Flags.mk (Flags.S f) (Flags.Z f) (Flags.AC f) b (Flags.CY f)) s.
Definition set_CY (b : bool) (s : CPU8085) : CPU8085 :=
  let f := flags s in
  with_flags (Flags.mk (Flags.S f) (Flags.Z f) (Flags.AC f) (Flags.P f) b) s.

(** ** The methods of [CPU8085] *)

(** [reset]: fresh registers and flags, [halted] cleared; the two arrays are
    not assigned. *)
Definition reset (s : CPU8085) : CPU8085 :=
  mkCPU (Registers.mk 0 0 0 0 0 0 0 0xFFFE 0x0000)
        (Flags.mk false true false true false)
        (memory s) false (ioPorts s).

(** The constructor: two zero-filled arrays, then [reset]. *)
Definition new_CPU8085 : CPU8085 :=
  mkCPU (Registers.mk 0 0 0 0 0 0 0 0xFFFE 0x0000)
        (Flags.mk false true false true false)
        ∅ false ∅.

Definition readByte (s : CPU8085) (address : Z) : Z :=
  u8_get (memory s) (Z.land address 0xFFFF).

Definition writeByte (address value : Z) (s : CPU8085) : CPU8085 :=
  with_memory (u8_set MEMORY_SIZE (memory s) (Z.land address 0xFFFF) (Z.land value 0xFF)) s.

Definition readWord (s : CPU8085) (address : Z) : Z :=
  let low := readByte s address in
  let high := readByte s (address + 1) in
  Z.lor (Z.shiftl high 8) low.

Definition writeWord (address value : Z) (s : CPU8085) : CPU8085 :=
  let s := writeByte address (Z.land value 0xFF) s in
  writeByte (address + 1) (Z.land (Z.shiftr value 8) 0xFF) s.

Definition getHL (s : CPU8085) : Z := Z.lor (Z.shiftl (reg_H s) 8) (reg_L s).
Definition setHL (value : Z) (s : CPU8085) : CPU8085 :=
  let s := set_H (Z.land (Z.shiftr value 8) 0xFF) s in
  set_L (Z.land value 0xFF) s.

Definition getBC (s : CPU8085) : Z := Z.lor (Z.shiftl (reg_B s) 8) (reg_C s).
Definition setBC (value : Z) (s : CPU8085) : CPU8085 :=
  let s := set_B (Z.land (Z.shiftr value 8) 0xFF) s in
  set_C (Z.land value 0xFF) s.

Definition getDE (s : CPU8085) : Z := Z.lor (Z.shiftl (reg_D s) 8) (reg_E s).
Definition setDE (value : Z) (s : CPU8085) : CPU8085 :=
  let s := set_D (Z.land (Z.shiftr value 8) 0xFF) s in
  set_E (Z.land value 0xFF) s.

(** The loop of [updateZSPFlags]: [for (i = 0; i < 8; i++) if ((val >> i) & 1)
    parityCount++], with [n] iterations left to run from index [i]. *)
Fixpoint parityLoop (n : nat) (i : Z) (val parityCount : Z) : Z :=
  match n with
  | O => parityCount
  | Datatypes.S n' =>
      parityLoop n' (i + 1) val
        (if Z.land (Z.shiftr val i) 1 =? 0 then parityCount else parityCount + 1)
  end.

Definition updateZSPFlags (value : Z) (s : CPU8085) : CPU8085 :=
  let val := Z.land value 0xFF in
  let s := set_S (negb (Z.land val 0x80 =? 0)) s in
  let s := set_Z (val =? 0) s in
  let parityCount := parityLoop 8 0 val 0 in
  set_P (parityCount mod 2 =? 0) s.

Definition add8bit (val1 val2 : Z) (carryIn : bool) (s : CPU8085) : Z * CPU8085 :=
  let c := if carryIn then 1 else 0 in
  let unmaskedResult := Z.land val1 0xFF + Z.land val2 0xFF + c in
  let result := Z.land unmaskedResult 0xFF in
  let s := set_CY (0xFF <? unmaskedResult) s in
  let s := set_AC (negb (Z.land (Z.land val1 0x0F + Z.land val2 0x0F + c) 0x10 =? 0)) s in
  let s := updateZSPFlags result s in
  (result, s).

Definition sub8bit (val1 val2 : Z) (borrowIn : bool) (s : CPU8085) : Z * CPU8085 :=
  let b := if borrowIn then 1 else 0 in
  let unmaskedResult := Z.land val1 0xFF - Z.land val2 0xFF - b in
  let result := Z.land unmaskedResult 0xFF in
  let s := set_CY (unmaskedResult <? 0) s in
  let s := set_AC (negb (Z.land (Z.land val1 0x0F - Z.land val2 0x0F - b) 0x10 =? 0)) s in
  let s := updateZSPFlags result s in
  (result, s).

Definition dad (val : Z) (s : CPU8085) : CPU8085 :=
  let hl := getHL s in
  let result := hl + val in
  let s := set_CY (0xFFFF <? result) s in
  setHL (Z.land result 0xFFFF) s.

Definition pushWord (value : Z) (s : CPU8085) : CPU8085 :=
  let s := set_SP (Z.land (reg_SP s - 1) 0xFFFF) s in
  let s := writeByte (reg_SP s) (Z.land (Z.shiftr value 8) 0xFF) s in
  let s := set_SP (Z.land (reg_SP s - 1) 0xFFFF) s in
  writeByte (reg_SP s) (Z.land value 0xFF) s.

Definition popWord (s : CPU8085) : Z * CPU8085 :=
  let low := readByte s (reg_SP s) in
  let s := set_SP (Z.land (reg_SP s + 1) 0xFFFF) s in
  let high := readByte s (reg_SP s) in
  let s := set_SP (Z.land (reg_SP s + 1) 0xFFFF) s in
  (Z.lor (Z.shiftl high 8) low, s).

Definition getPSW (s : CPU8085) : Z :=
  let pswFlags := 0 in
  let pswFlags := if flag_S s then Z.lor pswFlags 0x80 else pswFlags in
  let pswFlags := if flag_Z s then Z.lor pswFlags 0x40 else pswFlags in
  let pswFlags := if flag_AC s then Z.lor pswFlags 0x10 else pswFlags in
  let pswFlags := if flag_P s then Z.lor pswFlags 0x04 else pswFlags in
  let pswFlags := Z.lor pswFlags 0x02 in
  let pswFlags := if flag_CY s then Z.lor pswFlags 0x01 else pswFlags in
  Z.lor (Z.shiftl (reg_A s) 8) pswFlags.

Definition setPSW (value : Z) (s : CPU8085) : CPU8085 :=
  let s := set_A (Z.land (Z.shiftr value 8) 0xFF) s in
  let pswFlags := Z.land value 0xFF in
  let s := set_S (negb (Z.land pswFlags 0x80 =? 0)) s in
  let s := set_Z (negb (Z.land pswFlags 0x40 =? 0)) s in
  let s := set_AC (negb (Z.land pswFlags 0x10 =? 0)) s in
  let s := set_P (negb (Z.land pswFlags 0x04 =? 0)) s in
  set_CY (negb (Z.land pswFlags 0x01 =? 0)) s.

(** [this.registers.PC = (this.registers.PC + n) & 0xFFFF], the statement that
    steps over the operand bytes of an instruction. *)
Definition advancePC (n : Z) (s : CPU8085) : CPU8085 :=
  set_PC (Z.land (reg_PC s + n) 0xFFFF) s.

(** The [switch] of [executeInstruction], one branch per [case] in the order
    of the source; the [default] branch logs a warning and sets [halted]. *)
Definition executeInstruction (opcode : Z) (s : CPU8085) : CPU8085 :=
  match opcode with
  (* NOP *)
  | 0x00 => s
  (* LXI *)
  | 0x01 => let tempVal := readWord s (reg_PC s) in let s := setBC tempVal s in advancePC 2 s
  | 0x11 => let tempVal := readWord s (reg_PC s) in let s := setDE tempVal s in advancePC 2 s
  | 0x21 => let tempVal := readWord s (reg_PC s) in let s := setHL tempVal s in advancePC 2 s
  | 0x31 => let s := set_SP (readWord s (reg_PC s)) s in advancePC 2 s
  (* STA, LDA *)
  | 0x32 =>
      let tempAddr := readWord s (reg_PC s) in
      let s := writeByte tempAddr (reg_A s) s in
      advancePC 2 s
  | 0x3A =>
      let tempAddr := readWord s (reg_PC s) in
      let s := set_A (readByte s tempAddr) s in
      advancePC 2 s
  (* MVI R, D8 *)
  | 0x06 => let s := set_B (readByte s (reg_PC s)) s in advancePC 1 s
  | 0x0E => let s := set_C (readByte s (reg_PC s)) s in advancePC 1 s
  | 0x16 => let s := set_D (readByte s (reg_PC s)) s in advancePC 1 s
  | 0x1E => let s := set_E (readByte s (reg_PC s)) s in advancePC 1 s
  | 0x26 => let s := set_H (readByte s (reg_PC s)) s in advancePC 1 s
  | 0x2E => let s := set_L (readByte s (reg_PC s)) s in advancePC 1 s
  | 0x36 => let s := writeByte (getHL s) (readByte s (reg_PC s)) s in advancePC 1 s
  | 0x3E => let s := set_A (readByte s (reg_PC s)) s in advancePC 1 s
  (* MOV R, R' *)
  | 0x40 => s
  | 0x41 => set_B (reg_C s) s
  | 0x42 => set_B (reg_D s) s
  | 0x43 => set_B (reg_E s) s
  | 0x44 => set_B (reg_H s) s
  | 0x45 => set_B (reg_L s) s
  | 0x46 => set_B (readByte s (getHL s)) s
  | 0x47 => set_B (reg_A s) s
  | 0x48 => set_C (reg_B s) s
  | 0x49 => s
  | 0x4A => set_C (reg_D s) s
  | 0x4B => set_C (reg_E s) s
  | 0x4C => set_C (reg_H s) s
  | 0x4D => set_C (reg_L s) s
  | 0x4E => set_C (readByte s (getHL s)) s
  | 0x4F => set_C (reg_A s) s
  | 0x50 => set_D (reg_B s) s
  | 0x51 => set_D (reg_C s) s
  | 0x52 => s
  | 0x53 => set_D (reg_E s) s
  | 0x54 => set_D (reg_H s) s
  | 0x55 => set_D (reg_L s) s
  | 0x56 => set_D (readByte s (getHL s)) s
  | 0x57 => set_D (reg_A s) s
  | 0x58 => set_E (reg_B s) s
  | 0x59 => set_E (reg_C s) s
  | 0x5A => set_E (reg_D s) s
  | 0x5B => s
  | 0x5C => set_E (reg_H s) s
  | 0x5D => set_E (reg_L s) s
  | 0x5E => set_E (readByte s (getHL s)) s
  | 0x5F => set_E (reg_A s) s
  | 0x60 => set_H (reg_B s) s
  | 0x61 => set_H (reg_C s) s
  | 0x62 => set_H (reg_D s) s
  | 0x63 => set_H (reg_E s) s
  | 0x64 => s
  | 0x65 => set_H (reg_L s) s
  | 0x66 => set_H (readByte s (getHL s)) s
  | 0x67 => set_H (reg_A s) s
  | 0x68 => set_L (reg_B s) s
  | 0x69 => set_L (reg_C s) s
  | 0x6A => set_L (reg_D s) s
  | 0x6B => set_L (reg_E s) s
  | 0x6C => set_L (reg_H s) s
  | 0x6D => s
  | 0x6E => set_L (readByte s (getHL s)) s
  | 0x6F => set_L (reg_A s) s
  | 0x70 => writeByte (getHL s) (reg_B s) s
  | 0x71 => writeByte (getHL s) (reg_C s) s
  | 0x72 => writeByte (getHL s) (reg_D s) s
  | 0x73 => writeByte (getHL s) (reg_E s) s
  | 0x74 => writeByte (getHL s) (reg_H s) s
  | 0x75 => writeByte (getHL s) (reg_L s) s
  | 0x77 => writeByte (getHL s) (reg_A s) s
  | 0x78 => set_A (reg_B s) s
  | 0x79 => set_A (reg_C s) s
  | 0x7A => set_A (reg_D s) s
  | 0x7B => set_A (reg_E s) s
  | 0x7C => set_A (reg_H s) s
  | 0x7D => set_A (reg_L s) s
  | 0x7E => set_A (readByte s (getHL s)) s
  | 0x7F => s
  (* HLT *)
  | 0x76 => with_halted true s
  (* ADD R *)
  | 0x80 => let '(result, s) := add8bit (reg_A s) (reg_B s) false s in set_A result s
  | 0x81 => let '(result, s) := add8bit (reg_A s) (reg_C s) false s in set_A result s
  | 0x82 => let '(result, s) := add8bit (reg_A s) (reg_D s) false s in set_A result s
  | 0x83 => let '(result, s) := add8bit (reg_A s) (reg_E s) false s in set_A result s
  | 0x84 => let '(result, s) := add8bit (reg_A s) (reg_H s) false s in set_A result s
  | 0x85 => let '(result, s) := add8bit (reg_A s) (reg_L s) false s in set_A result s
  | 0x86 => let '(result, s) := add8bit (reg_A s) (readByte s (getHL s)) false s in set_A result s
  | 0x87 => let '(result, s) := add8bit (reg_A s) (reg_A s) false s in set_A result s
  (* ADC R *)
  | 0x88 => let '(result, s) := add8bit (reg_A s) (reg_B s) (flag_CY s) s in set_A result s
  | 0x89 => let '(result, s) := add8bit (reg_A s) (reg_C s) (flag_CY s) s in set_A result s
  | 0x8A => let '(result, s) := add8bit (reg_A s) (reg_D s) (flag_CY s) s in set_A result s
  | 0x8B => let '(result, s) := add8bit (reg_A s) (reg_E s) (flag_CY s) s in set_A result s
  | 0x8C => let '(result, s) := add8bit (reg_A s) (reg_H s) (flag_CY s) s in set_A result s
  | 0x8D => let '(result, s) := add8bit (reg_A s) (reg_L s) (flag_CY s) s in set_A result s
  | 0x8E =>
      let '(result, s) := add8bit (reg_A s) (readByte s (getHL s)) (flag_CY s) s in
      set_A result s
  | 0x8F => let '(result, s) := add8bit (reg_A s) (reg_A s) (flag_CY s) s in set_A result s
  (* SUB R *)
  | 0x90 => let '(result, s) := sub8bit (reg_A s) (reg_B s) false s in set_A result s
  | 0x91 => let '(result, s) := sub8bit (reg_A s) (reg_C s) false s in set_A result s
  | 0x92 => let '(result, s) := sub8bit (reg_A s) (reg_D s) false s in set_A result s
  | 0x93 => let '(result, s) := sub8bit (reg_A s) (reg_E s) false s in set_A result s
  | 0x94 => let '(result, s) := sub8bit (reg_A s) (reg_H s) false s in set_A result s
  | 0x95 => let '(result, s) := sub8bit (reg_A s) (reg_L s) false s in set_A result s
  | 0x96 => let '(result, s) := sub8bit (reg_A s) (readByte s (getHL s)) false s in set_A result s
  | 0x97 => let '(result, s) := sub8bit (reg_A s) (reg_A s) false s in set_A result s
  (* SBB R *)
  | 0x98 => let '(result, s) := sub8bit (reg_A s) (reg_B s) (flag_CY s) s in set_A result s
  | 0x99 => let '(result, s) := sub8bit (reg_A s) (reg_C s) (flag_CY s) s in set_A result s
  | 0x9A => let '(result, s) := sub8bit (reg_A s) (reg_D s) (flag_CY s) s in set_A result s
  | 0x9B => let '(result, s) := sub8bit (reg_A s) (reg_E s) (flag_CY s) s in set_A result s
  | 0x9C => let '(result, s) := sub8bit (reg_A s) (reg_H s) (flag_CY s) s in set_A result s
  | 0x9D => let '(result, s) := sub8bit (reg_A s) (reg_L s) (flag_CY s) s in set_A result s
  | 0x9E =>
      let '(result, s) := sub8bit (reg_A s) (readByte s (getHL s)) (flag_CY s) s in
      set_A result s
  | 0x9F => let '(result, s) := sub8bit (reg_A s) (reg_A s) (flag_CY s) s in set_A result s
  (* INR R *)
  | 0x04 =>
      let oldCY := flag_CY s in
      let '(result, s) := add8bit (reg_B s) 1 false s in
      let s := set_B result s in
      set_CY oldCY s
  | 0x0C =>
      let oldCY := flag_CY s in
      let '(result, s) := add8bit (reg_C s) 1 false s in
      let s := set_C result s in
      set_CY oldCY s
  | 0x14 =>
      let oldCY := flag_CY s in
      let '(result, s) := add8bit (reg_D s) 1 false s in
      let s := set_D result s in
      set_CY oldCY s
  | 0x1C =>
      let oldCY := flag_CY s in
      let '(result, s) := add8bit (reg_E s) 1 false s in
      let s := set_E result s in
      set_CY oldCY s
  | 0x24 =>
      let oldCY := flag_CY s in
      let '(result, s) := add8bit (reg_H s) 1 false s in
      let s := set_H result s in
      set_CY oldCY s
  | 0x2C =>
      let oldCY := flag_CY s in
      let '(result, s) := add8bit (reg_L s) 1 false s in
      let s := set_L result s in
      set_CY oldCY s
  | 0x34 =>
      let oldCY := flag_CY s in
      let tempVal := readByte s (getHL s) in
      let '(tempVal, s) := add8bit tempVal 1 false s in
      let s := writeByte (getHL s) tempVal s in
      set_CY oldCY s
  | 0x3C =>
      let oldCY := flag_CY s in
      let '(result, s) := add8bit (reg_A s) 1 false s in
      let s := set_A result s in
      set_CY oldCY s
  (* DCR R *)
  | 0x05 =>
      let oldCY := flag_CY s in
      let '(result, s) := sub8bit (reg_B s) 1 false s in
      let s := set_B result s in
      set_CY oldCY s
  | 0x0D =>
      let oldCY := flag_CY s in
      let '(result, s) := sub8bit (reg_C s) 1 false s in
      let s := set_C result s in
      set_CY oldCY s
  | 0x15 =>
      let oldCY := flag_CY s in
      let '(result, s) := sub8bit (reg_D s) 1 false s in
      let s := set_D result s in
      set_CY oldCY s
  | 0x1D =>
      let oldCY := flag_CY s in
      let '(result, s) := sub8bit (reg_E s) 1 false s in
      let s := set_E result s in
      set_CY oldCY s
  | 0x25 =>
      let oldCY := flag_CY s in
      let '(result, s) := sub8bit (reg_H s) 1 false s in
      let s := set_H result s in
      set_CY oldCY s
  | 0x2D =>
      let oldCY := flag_CY s in
      let '(result, s) := sub8bit (reg_L s) 1 false s in
      let s := set_L result s in
      set_CY oldCY s
  | 0x35 =>
      let oldCY := flag_CY s in
      let tempVal := readByte s (getHL s) in
      let '(tempVal, s) := sub8bit tempVal 1 false s in
      let s := writeByte (getHL s) tempVal s in
      set_CY oldCY s
  | 0x3D =>
      let oldCY := flag_CY s in
      let '(result, s) := sub8bit (reg_A s) 1 false s in
      let s := set_A result s in
      set_CY oldCY s
  (* ADI, ACI, SUI, SBI *)
  | 0xC6 =>
      let tempVal := readByte s (reg_PC s) in
      let '(result, s) := add8bit (reg_A s) tempVal false s in
      let s := set_A result s in
      advancePC 1 s
  | 0xCE =>
      let tempVal := readByte s (reg_PC s) in
      let '(result, s) := add8bit (reg_A s) tempVal (flag_CY s) s in
      let s := set_A result s in
      advancePC 1 s
  | 0xD6 =>
      let tempVal := readByte s (reg_PC s) in
      let '(result, s) := sub8bit (reg_A s) tempVal false s in
      let s := set_A result s in
      advancePC 1 s
  | 0xDE =>
      let tempVal := readByte s (reg_PC s) in
      let '(result, s) := sub8bit (reg_A s) tempVal (flag_CY s) s in
      let s := set_A result s in
      advancePC 1 s
  (* JMP, Jcond *)
  | 0xC3 => set_PC (readWord s (reg_PC s)) s
  | 0xC2 =>
      let condition := negb (flag_Z s) in
      let tempAddr := readWord s (reg_PC s) in
      if condition then set_PC tempAddr s else advancePC 2 s
  | 0xCA =>
      let condition := flag_Z s in
      let tempAddr := readWord s (reg_PC s) in
      if condition then set_PC tempAddr s else advancePC 2 s
  | 0xD2 =>
      let condition := negb (flag_CY s) in
      let tempAddr := readWord s (reg_PC s) in
      if condition then set_PC tempAddr s else advancePC 2 s
  | 0xDA =>
      let condition := flag_CY s in
      let tempAddr := readWord s (reg_PC s) in
      if condition then set_PC tempAddr s else advancePC 2 s
  | 0xE2 =>
      let condition := negb (flag_P s) in
      let tempAddr := readWord s (reg_PC s) in
      if condition then set_PC tempAddr s else advancePC 2 s
  | 0xEA =>
      let condition := flag_P s in
      let tempAddr := readWord s (reg_PC s) in
      if condition then set_PC tempAddr s else advancePC 2 s
  | 0xF2 =>
      let condition := negb (flag_S s) in
      let tempAddr := readWord s (reg_PC s) in
      if condition then set_PC tempAddr s else advancePC 2 s
  | 0xFA =>
      let condition := flag_S s in
      let tempAddr := readWord s (reg_PC s) in
      if condition then set_PC tempAddr s else advancePC 2 s
  (* CALL, Ccond *)
  | 0xCD =>
      let tempAddr := readWord s (reg_PC s) in
      let s := pushWord (Z.land (reg_PC s + 2) 0xFFFF) s in
      set_PC tempAddr s
  | 0xC4 =>
      let condition := negb (flag_Z s) in
      let tempAddr := readWord s (reg_PC s) in
      if condition
      then let s := pushWord (Z.land (reg_PC s + 2) 0xFFFF) s in set_PC tempAddr s
      else advancePC 2 s
  | 0xCC =>
      let condition := flag_Z s in
      let tempAddr := readWord s (reg_PC s) in
      if condition
      then let s := pushWord (Z.land (reg_PC s + 2) 0xFFFF) s in set_PC tempAddr s
      else advancePC 2 s
  | 0xD4 =>
      let condition := negb (flag_CY s) in
      let tempAddr := readWord s (reg_PC s) in
      if condition
      then let s := pushWord (Z.land (reg_PC s + 2) 0xFFFF) s in set_PC tempAddr s
      else advancePC 2 s
  | 0xDC =>
      let condition := flag_CY s in
      let tempAddr := readWord s (reg_PC s) in
      if condition
      then let s := pushWord (Z.land (reg_PC s + 2) 0xFFFF) s in set_PC tempAddr s
      else advancePC 2 s
  (* RET, Rcond *)
  | 0xC9 => let '(w, s) := popWord s in set_PC w s
  | 0xC0 => if negb (flag_Z s) then let '(w, s) := popWord s in set_PC w s else s
  | 0xC8 => if flag_Z s then let '(w, s) := popWord s in set_PC w s else s
  | 0xD0 => if negb (flag_CY s) then let '(w, s) := popWord s in set_PC w s else s
  | 0xD8 => if flag_CY s then let '(w, s) := popWord s in set_PC w s else s
  (* PUSH / POP *)
  | 0xC1 => let '(w, s) := popWord s in setBC w s
  | 0xD1 => let '(w, s) := popWord s in setDE w s
  | 0xE1 => let '(w, s) := popWord s in setHL w s
  | 0xF1 => let '(w, s) := popWord s in setPSW w s
  | 0xC5 => pushWord (getBC s) s
  | 0xD5 => pushWord (getDE s) s
  | 0xE5 => pushWord (getHL s) s
  | 0xF5 => pushWord (getPSW s) s
  (* IN / OUT *)
  | 0xDB =>
      let tempVal := readByte s (reg_PC s) in
      let s := set_A (u8_get (ioPorts s) tempVal) s in
      advancePC 1 s
  | 0xD3 =>
      let tempVal := readByte s (reg_PC s) in
      let s := with_ioPorts (u8_set IO_SIZE (ioPorts s) tempVal (reg_A s)) s in
      advancePC 1 s
  (* XCHG, XTHL, SPHL, PCHL *)
  | 0xEB =>
      let tempH := reg_H s in
      let tempL := reg_L s in
      let s := set_H (reg_D s) s in
      let s := set_L (reg_E s) s in
      let s := set_D tempH s in
      set_E tempL s
  | 0xE3 =>
      let lFromStack := readByte s (reg_SP s) in
      let hFromStack := readByte s (reg_SP s + 1) in
      let s := writeByte (reg_SP s) (reg_L s) s in
      let s := writeByte (reg_SP s + 1) (reg_H s) s in
      let s := set_L lFromStack s in
      set_H hFromStack s
  | 0xF9 => set_SP (getHL s) s
  | 0xE9 => set_PC (getHL s) s
  (* Rotates *)
  | 0x07 =>
      let msb := Z.shiftr (Z.land (reg_A s) 0x80) 7 in
      let s := set_A (Z.land (Z.lor (Z.shiftl (reg_A s) 1) msb) 0xFF) s in
      set_CY (msb =? 1) s
  | 0x0F =>
      let lsb := Z.land (reg_A s) 0x01 in
      let s := set_A (Z.land (Z.lor (Z.shiftr (reg_A s) 1) (Z.shiftl lsb 7)) 0xFF) s in
      set_CY (lsb =? 1) s
  | 0x17 =>
      let oldCY := if flag_CY s then 1 else 0 in
      let s := set_CY (negb (Z.land (reg_A s) 0x80 =? 0)) s in
      set_A (Z.land (Z.lor (Z.shiftl (reg_A s) 1) oldCY) 0xFF) s
  | 0x1F =>
      let oldCY := if flag_CY s then 1 else 0 in
      let s := set_CY (negb (Z.land (reg_A s) 0x01 =? 0)) s in
      set_A (Z.land (Z.lor (Z.shiftr (reg_A s) 1) (Z.shiftl oldCY 7)) 0xFF) s
  (* DAA *)
  | 0x27 =>
      let a := reg_A s in
      let correction := 0 in
      let lsn := Z.land a 0x0F in
      let msn := Z.shiftr a 4 in
      let oldCY := flag_CY s in
      let correction :=
        if flag_AC s || (9 <? lsn) then correction + 0x06 else correction in
      let '(correction, s) :=
        if flag_CY s || (9 <? msn) || ((9 <=? msn) && (9 <? lsn))
        then (correction + 0x60, set_CY true s) else (correction, s) in
      let '(result, s) := add8bit a correction false s in
      let s := set_A result s in
      set_CY (oldCY || flag_CY s) s
  (* CMA, STC, CMC *)
  | 0x2F => set_A (Z.land (Z.lnot (reg_A s)) 0xFF) s
  | 0x37 => set_CY true s
  | 0x3F => set_CY (negb (flag_CY s)) s
  (* ANA R, ANI *)
  | 0xA0 =>
      let s := set_A (Z.land (reg_A s) (reg_B s)) s in
      let s := updateZSPFlags (reg_A s) s in
      let s := set_CY false s in
      set_AC false s
  | 0xA1 =>
      let s := set_A (Z.land (reg_A s) (reg_C s)) s in
      let s := updateZSPFlags (reg_A s) s in
      let s := set_CY false s in
      set_AC false s
  | 0xA6 =>
      let s := set_A (Z.land (reg_A s) (readByte s (getHL s))) s in
      let s := updateZSPFlags (reg_A s) s in
      let s := set_CY false s in
      set_AC false s
  | 0xA7 =>
      let s := set_A (Z.land (reg_A s) (reg_A s)) s in
      let s := updateZSPFlags (reg_A s) s in
      let s := set_CY false s in
      set_AC false s
  | 0xE6 =>
      let tempVal := readByte s (reg_PC s) in
      let s := set_A (Z.land (reg_A s) tempVal) s in
      let s := updateZSPFlags (reg_A s) s in
      let s := set_CY false s in
      let s := set_AC false s in
      advancePC 1 s
  (* XRA R, XRI *)
  | 0xA8 =>
      let s := set_A (Z.lxor (reg_A s) (reg_B s)) s in
      let s := updateZSPFlags (reg_A s) s in
      let s := set_CY false s in
      set_AC false s
  | 0xAE =>
      let s := set_A (Z.lxor (reg_A s) (readByte s (getHL s))) s in
      let s := updateZSPFlags (reg_A s) s in
      let s := set_CY false s in
      set_AC false s
  | 0xAF =>
      let s := set_A (Z.lxor (reg_A s) (reg_A s)) s in
      let s := updateZSPFlags (reg_A s) s in
      let s := set_CY false s in
      set_AC false s
  | 0xEE =>
      let tempVal := readByte s (reg_PC s) in
      let s := set_A (Z.lxor (reg_A s) tempVal) s in
      let s := updateZSPFlags (reg_A s) s in
      let s := set_CY false s in
      let s := set_AC false s in
      advancePC 1 s
  (* ORA R, ORI *)
  | 0xB0 =>
      let s := set_A (Z.lor (reg_A s) (reg_B s)) s in
      let s := updateZSPFlags (reg_A s) s in
      let s := set_CY false s in
      set_AC false s
  | 0xB6 =>
      let s := set_A (Z.lor (reg_A s) (readByte s (getHL s))) s in
      let s := updateZSPFlags (reg_A s) s in
      let s := set_CY false s in
      set_AC false s
  | 0xB7 =>
      let s := set_A (Z.lor (reg_A s) (reg_A s)) s in
      let s := updateZSPFlags (reg_A s) s in
      let s := set_CY false s in
      set_AC false s
  | 0xF6 =>
      let tempVal := readByte s (reg_PC s) in
      let s := set_A (Z.lor (reg_A s) tempVal) s in
      let s := updateZSPFlags (reg_A s) s in
      let s := set_CY false s in
      let s := set_AC false s in
      advancePC 1 s
  (* CMP R, CPI *)
  | 0xB8 => let '(_, s) := sub8bit (reg_A s) (reg_B s) false s in s
  | 0xBE => let '(_, s) := sub8bit (reg_A s) (readByte s (getHL s)) false s in s
  | 0xBF => let '(_, s) := sub8bit (reg_A s) (reg_A s) false s in s
  | 0xFE =>
      let tempVal := readByte s (reg_PC s) in
      let '(_, s) := sub8bit (reg_A s) tempVal false s in
      advancePC 1 s
  (* DAD rp *)
  | 0x09 => dad (getBC s) s
  | 0x19 => dad (getDE s) s
  | 0x29 => dad (getHL s) s
  | 0x39 => dad (reg_SP s) s
  (* INX rp, DCX rp *)
  | 0x03 => setBC (Z.land (getBC s + 1) 0xFFFF) s
  | 0x0B => setBC (Z.land (getBC s - 1) 0xFFFF) s
  | 0x13 => setDE (Z.land (getDE s + 1) 0xFFFF) s
  | 0x1B => setDE (Z.land (getDE s - 1) 0xFFFF) s
  | 0x23 => setHL (Z.land (getHL s + 1) 0xFFFF) s
  | 0x2B => setHL (Z.land (getHL s - 1) 0xFFFF) s
  | 0x33 => set_SP (Z.land (reg_SP s + 1) 0xFFFF) s
  | 0x3B => set_SP (Z.land (reg_SP s - 1) 0xFFFF) s
  (* STAX, LDAX *)
  | 0x02 => writeByte (getBC s) (reg_A s) s
  | 0x12 => writeByte (getDE s) (reg_A s) s
  | 0x0A => set_A (readByte s (getBC s)) s
  | 0x1A => set_A (readByte s (getDE s)) s
  (* SHLD, LHLD *)
  | 0x22 =>
      let tempAddr := readWord s (reg_PC s) in
      let s := writeWord tempAddr (getHL s) s in
      advancePC 2 s
  | 0x2A =>
      let tempAddr := readWord s (reg_PC s) in
      let s := setHL (readWord s tempAddr) s in
      advancePC 2 s
  (* EI, DI, RIM, SIM *)
  | 0xFB => s
  | 0xF3 => s
  | 0x20 => s
  | 0x30 => s
  (* RST n *)
  | 0xC7 => let s := pushWord (reg_PC s) s in set_PC 0x0000 s
  | 0xCF => let s := pushWord (reg_PC s) s in set_PC 0x0008 s
  | 0xD7 => let s := pushWord (reg_PC s) s in set_PC 0x0010 s
  | 0xDF => let s := pushWord (reg_PC s) s in set_PC 0x0018 s
  | 0xE7 => let s := pushWord (reg_PC s) s in set_PC 0x0020 s
  | 0xEF => let s := pushWord (reg_PC s) s in set_PC 0x0028 s
  | 0xF7 => let s := pushWord (reg_PC s) s in set_PC 0x0030 s
  | 0xFF => let s := pushWord (reg_PC s) s in set_PC 0x0038 s
  (* default: unknown or unimplemented opcode *)
  | _ => with_halted true s
  end.

Definition step (s : CPU8085) : CPU8085 :=
  if halted s then s
  else
    let opcode := readByte s (reg_PC s) in
    let s := set_PC (Z.land (reg_PC s + 1) 0xFFFF) s in
    executeInstruction opcode s.

(** ** Loading and running programs

    The application stores a program one byte at a time with [writeByte] and
    the run loop calls [step] repeatedly. *)
Fixpoint loadProgram (address : Z) (bytes : list Z) (s : CPU8085) : CPU8085 :=
  match bytes with
  | [] => s
  | b :: rest => loadProgram (address + 1) rest (writeByte address b s)
  end.

Fixpoint steps (n : nat) (s : CPU8085) : CPU8085 :=
  match n with
  | O => s
  | Datatypes.S n' => steps n' (step s)
  end.

(** ** Reachable processor states

    What the application does with the object: it constructs it, resets it,
    steps it, stores bytes with [writeByte], and the run loop assigns the
    program counter (a value parsed from four hex digits) and clears
    [halted] before it starts stepping. *)
Inductive reachable : CPU8085 -> Prop :=
  | reach_new : reachable new_CPU8085
  | reach_reset s : reachable s -> reachable (reset s)
  | reach_step s : reachable s -> reachable (step s)
  | reach_writeByte s address value :
      reachable s -> reachable (writeByte address value s)
  | reach_go s startAddress :
      reachable s -> 0 <= startAddress < 65536 ->
      reachable (with_halted false (set_PC startAddress s)).

(** ** The range invariant

    Every 8-bit register holds a byte, both pointers hold 16-bit words, and
    the two arrays hold bytes at indices inside their bounds. *)

Definition byte (v : Z) : Prop := 0 <= v < 256.
Definition word (v : Z) : Prop := 0 <= v < 65536.

Definition wf_array (len : Z) (arr : gmap Z Z) : Prop :=
  map_Forall (fun i v => 0 <= i < len /\ byte v) arr.

Definition wf_registers (r : Registers.t) : Prop :=
  byte (Registers.A r) /\ byte (Registers.B r) /\ byte (Registers.C r) /\
  byte (Registers.D r) /\ byte (Registers.E r) /\ byte (Registers.H r) /\
  byte (Registers.L r) /\ word (Registers.SP r) /\ word (Registers.PC r).

Definition wf (s : CPU8085) : Prop :=
  wf_registers (registers s) /\
  wf_array MEMORY_SIZE (memory s) /\ wf_array IO_SIZE (ioPorts s).

(** ** Vocabulary of the properties *)

(** Number of set bits of a non-negative integer, read off its binary
    representation. *)
Fixpoint pos_popcount (p : positive) : nat :=
  match p with
  | xH => 1
  | xO q => pos_popcount q
  | xI q => Datatypes.S (pos_popcount q)
  end.

Definition popcount (v : Z) : nat :=
  match v with
  | Zpos p => pos_popcount p
  | _ => O
  end.

(** A property of integers below [n], checked by running through them. *)
Definition check_below (n : nat) (f : Z -> bool) : bool :=
  forallb f (map Z.of_nat (seq 0 n)).

(** The increment and decrement opcodes: B, C, D, E, H, L, M, A. *)
Definition INR_opcodes : list Z := [0x04; 0x0C; 0x14; 0x1C; 0x24; 0x2C; 0x34; 0x3C].
Definition DCR_opcodes : list Z := [0x05; 0x0D; 0x15; 0x1D; 0x25; 0x2D; 0x35; 0x3D].

(** The operand that an INR or DCR opcode works on: the register named by
    the opcode, or the memory byte at HL for the M forms. *)
Definition incdec_operand (opcode : Z) (s : CPU8085) : Z :=
  match opcode with
  | 0x04 | 0x05 => reg_B s
  | 0x0C | 0x0D => reg_C s
  | 0x14 | 0x15 => reg_D s
  | 0x1C | 0x1D => reg_E s
  | 0x24 | 0x25 => reg_H s
  | 0x2C | 0x2D => reg_L s
  | 0x34 | 0x35 => readByte s (getHL s)
  | _ => reg_A s
  end.

(** Sign, Zero, Auxiliary-Carry and Parity of [f1] are those of [f2]. *)
Definition same_SZAP (f1 f2 : Flags.t) : Prop :=
  Flags.S f1 = Flags.S f2 /\ Flags.Z f1 = Flags.Z f2 /\
  Flags.AC f1 = Flags.AC f2 /\ Flags.P f1 = Flags.P f2.


(** The condition that the ISA attaches to each conditional call opcode. *)
Definition call_condition (opcode : Z) (s : CPU8085) : bool :=
  match opcode with
  | 0xC4 => negb (flag_Z s)   (* CNZ *)
  | 0xCC => flag_Z s          (* CZ *)
  | 0xD4 => negb (flag_CY s)  (* CNC *)
  | 0xDC => flag_CY s         (* CC *)
  | 0xE4 => negb (flag_P s)   (* CPO *)
  | 0xEC => flag_P s          (* CPE *)
  | 0xF4 => negb (flag_S s)   (* CP *)
  | _ => flag_S s             (* CM, 0xFC *)
  end.

(** The condition that the ISA attaches to each conditional return opcode. *)
Definition ret_condition (opcode : Z) (s : CPU8085) : bool :=
  match opcode with
  | 0xC0 => negb (flag_Z s)   (* RNZ *)
  | 0xC8 => flag_Z s          (* RZ *)
  | 0xD0 => negb (flag_CY s)  (* RNC *)
  | 0xD8 => flag_CY s         (* RC *)
  | 0xE0 => negb (flag_P s)   (* RPO *)
  | 0xE8 => flag_P s          (* RPE *)
  | 0xF0 => negb (flag_S s)   (* RP *)
  | _ => flag_S s             (* RM, 0xF8 *)
  end.

(** The conditional calls and returns that have a [case] in the switch, and
    those that have none. *)
Definition Ccond_implemented : list Z := [0xC4; 0xCC; 0xD4; 0xDC].
Definition Rcond_implemented : list Z := [0xC0; 0xC8; 0xD0; 0xD8].
Definition Ccond_missing : list Z := [0xE4; 0xEC; 0xF4; 0xFC].
Definition Rcond_missing : list Z := [0xE0; 0xE8; 0xF0; 0xF8].

(** The local [pswFlags] of [getPSW]: the flags byte. *)
Definition pswFlags_of (s : CPU8085) : Z :=
  let pswFlags := 0 in
  let pswFlags := if flag_S s then Z.lor pswFlags 0x80 else pswFlags in
  let pswFlags := if flag_Z s then Z.lor pswFlags 0x40 else pswFlags in
  let pswFlags := if flag_AC s then Z.lor pswFlags 0x10 else pswFlags in
  let pswFlags := if flag_P s then Z.lor pswFlags 0x04 else pswFlags in
  let pswFlags := Z.lor pswFlags 0x02 in
  if flag_CY s then Z.lor pswFlags 0x01 else pswFlags.

(** The compare opcodes that have a [case]: CMP B, CMP M, CMP A and CPI. *)
Definition CMP_opcodes : list Z := [0xB8; 0xBE; 0xBF; 0xFE].

(** The value a compare opcode subtracts from the accumulator: register B,
    the memory byte at HL, the accumulator itself, or for CPI the byte that
    follows the opcode. *)
Definition cmp_operand (opcode : Z) (s : CPU8085) : Z :=
  match opcode with
  | 0xB8 => reg_B s
  | 0xBE => readByte s (getHL s)
  | 0xBF => reg_A s
  | _ => readByte s (reg_PC s + 1)
  end.

(** Number of bytes of a compare instruction: CPI carries one immediate. *)
Definition cmp_length (opcode : Z) : Z := if opcode =? 0xFE then 2 else 1.

(** ** Concrete states *)

(** A freshly constructed processor with one opcode byte stored at address 0,
    where the program counter points. *)
Definition opcode_state (opcode : Z) : CPU8085 := writeByte 0x0000 opcode new_CPU8085.

(** A freshly constructed processor (Sign clear, Parity set) with the
    three-byte instruction [opcode 34 12] stored at address 0. *)
Definition branch_state (opcode : Z) : CPU8085 :=
  loadProgram 0x0000 [opcode; 0x34; 0x12] new_CPU8085.

(** The spec's scenario: accumulator 0xFF, Carry set, INR A at address 0. *)
Definition inr_a_state : CPU8085 :=
  set_CY true (set_A 0xFF (writeByte 0x0000 0x3C new_CPU8085)).

(** Register B is 0, Carry clear, DCR B at address 0. *)
Definition dcr_b_state : CPU8085 := writeByte 0x0000 0x05 new_CPU8085.

(** The spec's scenario: push 0x1234 with the stack pointer at 0x2000. *)
Definition stack_state : CPU8085 := set_SP 0x2000 new_CPU8085.

(** A processor that has just executed HLT at address 0. *)
Definition hlt_state : CPU8085 := step (writeByte 0x0000 0x76 new_CPU8085).

(** Accumulator 0x9A with Sign, Parity and Carry set. *)
Definition psw_state : CPU8085 :=
  with_flags (Flags.mk true false false true true) (set_A 0x9A new_CPU8085).

(** Accumulator 0x15 with Carry set, DAA at address 0: the correction 0x60
    does not overflow, so the adder itself reports no carry. *)
Definition daa_state : CPU8085 :=
  set_CY true (set_A 0x15 (writeByte 0x0000 0x27 new_CPU8085)).

(** Accumulator 0x10, CPI 0x20 at address 0. *)
Definition cpi_state : CPU8085 :=
  set_A 0x10 (loadProgram 0x0000 [0xFE; 0x20] new_CPU8085).

(** ** Vocabulary and states of the further properties *)

(** Membership of an opcode in a list of opcodes. *)
Definition opcode_in (opcode : Z) (l : list Z) : bool := existsb (Z.eqb opcode) l.

(** The opcodes whose [case] calls [writeByte], [writeWord] or [pushWord]:
    STAX, SHLD, STA, INR M, DCR M, MVI M, MOV M,r, the conditional and
    unconditional calls, PUSH, XTHL and RST. *)
Definition memory_writers : list Z :=
  [0x02; 0x12; 0x22; 0x32; 0x34; 0x35; 0x36;
   0x70; 0x71; 0x72; 0x73; 0x74; 0x75; 0x77;
   0xC4; 0xCC; 0xD4; 0xDC; 0xCD; 0xC5; 0xD5; 0xE5; 0xF5; 0xE3;
   0xC7; 0xCF; 0xD7; 0xDF; 0xE7; 0xEF; 0xF7; 0xFF].

(** The opcodes whose [case] assigns a flag: the 8-bit arithmetic and
    logic groups with their immediate forms, INR, DCR, the rotates, DAA,
    STC, CMC, the compares, DAD and POP PSW. *)
Definition flag_writers : list Z :=
  [0x80; 0x81; 0x82; 0x83; 0x84; 0x85; 0x86; 0x87;
   0x88; 0x89; 0x8A; 0x8B; 0x8C; 0x8D; 0x8E; 0x8F;
   0x90; 0x91; 0x92; 0x93; 0x94; 0x95; 0x96; 0x97;
   0x98; 0x99; 0x9A; 0x9B; 0x9C; 0x9D; 0x9E; 0x9F;
   0x04; 0x0C; 0x14; 0x1C; 0x24; 0x2C; 0x34; 0x3C;
   0x05; 0x0D; 0x15; 0x1D; 0x25; 0x2D; 0x35; 0x3D;
   0xC6; 0xCE; 0xD6; 0xDE;
   0x07; 0x0F; 0x17; 0x1F; 0x27; 0x37; 0x3F;
   0xA0; 0xA1; 0xA6; 0xA7; 0xE6; 0xA8; 0xAE; 0xAF; 0xEE;
   0xB0; 0xB6; 0xB7; 0xF6; 0xB8; 0xBE; 0xBF; 0xFE;
   0x09; 0x19; 0x29; 0x39; 0xF1].

(** The opcodes whose [case] assigns the stack pointer: LXI SP, INX SP,
    DCX SP, SPHL, and everything that pushes or pops. *)
Definition SP_writers : list Z :=
  [0x31; 0x33; 0x3B; 0xF9;
   0xCD; 0xC4; 0xCC; 0xD4; 0xDC; 0xC9; 0xC0; 0xC8; 0xD0; 0xD8;
   0xC1; 0xD1; 0xE1; 0xF1; 0xC5; 0xD5; 0xE5; 0xF5;
   0xC7; 0xCF; 0xD7; 0xDF; 0xE7; 0xEF; 0xF7; 0xFF].

(** HLT and the 37 bytes without a [case]. *)
Definition halting_opcodes : list Z :=
  [0x08; 0x10; 0x18; 0x28; 0x38; 0x76;
   0xA2; 0xA3; 0xA4; 0xA5; 0xA9; 0xAA; 0xAB; 0xAC; 0xAD;
   0xB1; 0xB2; 0xB3; 0xB4; 0xB5; 0xB9; 0xBA; 0xBB; 0xBC; 0xBD;
   0xCB; 0xD9; 0xDD; 0xE0; 0xE4; 0xE8; 0xEC; 0xED;
   0xF0; 0xF4; 0xF8; 0xFC; 0xFD].

(** Carry or borrow as a number. *)
Definition bit (b : bool) : Z := if b then 1 else 0.

(** The rotate cases as functions of the accumulator and Carry, returning
    the new accumulator and the new Carry. *)
Definition RLC_of (a : Z) : Z * bool :=
  let msb := Z.shiftr (Z.land a 0x80) 7 in
  (Z.land (Z.lor (Z.shiftl a 1) msb) 0xFF, msb =? 1).
Definition RRC_of (a : Z) : Z * bool :=
  let lsb := Z.land a 0x01 in
  (Z.land (Z.lor (Z.shiftr a 1) (Z.shiftl lsb 7)) 0xFF, lsb =? 1).
Definition RAL_of (a : Z) (cy : bool) : Z * bool :=
  let oldCY := if cy then 1 else 0 in
  (Z.land (Z.lor (Z.shiftl a 1) oldCY) 0xFF, negb (Z.land a 0x80 =? 0)).
Definition RAR_of (a : Z) (cy : bool) : Z * bool :=
  let oldCY := if cy then 1 else 0 in
  (Z.land (Z.lor (Z.shiftr a 1) (Z.shiftl oldCY 7)) 0xFF, negb (Z.land a 0x01 =? 0)).

(** Running [second] after [first] gives back the registers and Carry, and
    leaves memory, ports and [halted] alone. *)
Definition restores_registers_and_carry (first second : Z) (s : CPU8085) : Prop :=
  let s2 := executeInstruction second (executeInstruction first s) in
  registers s2 = registers s /\ flag_CY s2 = flag_CY s /\
  memory s2 = memory s /\ ioPorts s2 = ioPorts s /\ halted s2 = halted s.

(** INR r and DCR r for the seven registers B, C, D, E, H, L, A. *)
Definition INR_DCR_register_pairs : list (Z * Z) :=
  [(0x04, 0x05); (0x0C, 0x0D); (0x14, 0x15); (0x1C, 0x1D);
   (0x24, 0x25); (0x2C, 0x2D); (0x3C, 0x3D)].

(** The logic opcodes that have a [case]: ANA B, C, M, A and ANI; XRA B, M,
    A and XRI; ORA B, M, A and ORI. *)
Definition logic_opcodes : list Z :=
  [0xA0; 0xA1; 0xA6; 0xA7; 0xE6; 0xA8; 0xAE; 0xAF; 0xEE; 0xB0; 0xB6; 0xB7; 0xF6].

(** The accumulator a logic opcode computes; the immediate forms take the
    byte that follows the opcode. *)
Definition logic_result (opcode : Z) (s : CPU8085) : Z :=
  let immediate := readByte s (Z.land (reg_PC s + 1) 0xFFFF) in
  match opcode with
  | 0xA0 => Z.land (reg_A s) (reg_B s)
  | 0xA1 => Z.land (reg_A s) (reg_C s)
  | 0xA6 => Z.land (reg_A s) (readByte s (getHL s))
  | 0xA7 => Z.land (reg_A s) (reg_A s)
  | 0xE6 => Z.land (reg_A s) immediate
  | 0xA8 => Z.lxor (reg_A s) (reg_B s)
  | 0xAE => Z.lxor (reg_A s) (readByte s (getHL s))
  | 0xAF => Z.lxor (reg_A s) (reg_A s)
  | 0xEE => Z.lxor (reg_A s) immediate
  | 0xB0 => Z.lor (reg_A s) (reg_B s)
  | 0xB6 => Z.lor (reg_A s) (readByte s (getHL s))
  | 0xB7 => Z.lor (reg_A s) (reg_A s)
  | _ => Z.lor (reg_A s) immediate
  end.

(** The conditional jumps, all of which have a [case], and the condition
    each one reads. *)
Definition Jcond_opcodes : list Z := [0xC2; 0xCA; 0xD2; 0xDA; 0xE2; 0xEA; 0xF2; 0xFA].

Definition jump_condition (opcode : Z) (s : CPU8085) : bool :=
  match opcode with
  | 0xC2 => negb (flag_Z s)   (* JNZ *)
  | 0xCA => flag_Z s          (* JZ *)
  | 0xD2 => negb (flag_CY s)  (* JNC *)
  | 0xDA => flag_CY s         (* JC *)
  | 0xE2 => negb (flag_P s)   (* JPO *)
  | 0xEA => flag_P s          (* JPE *)
  | 0xF2 => negb (flag_S s)   (* JP *)
  | _ => flag_S s             (* JM, 0xFA *)
  end.

(** The packed BCD byte of a number below 100: tens in the high nibble,
    units in the low nibble. *)
Definition bcd (n : Z) : Z := (n / 10) * 16 + n mod 10.

(** The DAA case as a function of the accumulator, Auxiliary-Carry and
    Carry, returning the new accumulator and the new Carry. *)
Definition DAA_of (a : Z) (ac cy : bool) : Z * bool :=
  let lsn := Z.land a 0x0F in
  let msn := Z.shiftr a 4 in
  let correction := 0 in
  let correction := if ac || (9 <? lsn) then correction + 0x06 else correction in
  let correction :=
    if cy || (9 <? msn) || ((9 <=? msn) && (9 <? lsn))
    then correction + 0x60 else correction in
  let r := add8bit a correction false new_CPU8085 in
  (fst r, cy || flag_CY (snd r)).

(** The accumulator and Carry after [add8bit a b c] followed by DAA. *)
Definition add_then_DAA (a b : Z) (c : bool) : Z * bool :=
  let r := add8bit a b c new_CPU8085 in
  DAA_of (fst r) (flag_AC (snd r)) (flag_CY (snd r)).

(** The effect in the application that keeps the examined address in the
    memory view: when the address is outside the 256 bytes shown, the view
    start becomes [Math.max(0, (currentExamAddress - 128) & 0xFFF0)]. *)
Definition autoFocusStart (currentExamAddress memoryViewStartAddress : Z) : Z :=
  if (memoryViewStartAddress + 256 <=? currentExamAddress)
     || (currentExamAddress <? memoryViewStartAddress)
  then Z.max 0 (Z.land (currentExamAddress - 128) 0xFFF0)
  else memoryViewStartAddress.

(** [handleAddrSubmit] of the memory view. The handler returns nothing; all
    it does is call the property [onSetStartAddressView], when the number
    that [parseInt] read from the input box is not NaN ([None] here) and
    lies in 0..0xFFFF, with that number aligned to a row of 16 bytes. The
    callback acts on the state of whoever passed it, here [view]. *)
Definition handleAddrSubmit {View : Type} (onSetStartAddressView : Z -> View -> View)
    (newAddr : option Z) (view : View) : View :=
  match newAddr with
  | Some newAddr =>
      if (0 <=? newAddr) && (newAddr <=? 0xFFFF)
      then onSetStartAddressView (Z.land newAddr 0xFFF0) view
      else view
  | None => view
  end.

(** The two state variables of the application that decide what the memory
    view shows. *)
Record AppView : Type := mkAppView
  { currentExamAddress : Z; memoryViewStartAddress : Z }.

Definition setMemoryViewStartAddress (value : Z) (a : AppView) : AppView :=
  mkAppView (currentExamAddress a) value.

(** One run of the auto-focus effect on the application's state. *)
Definition autoFocusEffect (a : AppView) : AppView :=
  setMemoryViewStartAddress
    (autoFocusStart (currentExamAddress a) (memoryViewStartAddress a)) a.

(** A submit of the memory view inside the application, which passes
    [setMemoryViewStartAddress] as [onSetStartAddressView]: when the call
    changes the view start the application renders again and the auto-focus
    effect, which depends on the view start, runs on the new state; when
    nothing changed, nothing runs. *)
Definition viewAfterSubmit (newAddr : option Z) (a : AppView) : AppView :=
  let submitted := handleAddrSubmit setMemoryViewStartAddress newAddr a in
  if memoryViewStartAddress submitted =? memoryViewStartAddress a
  then submitted
  else autoFocusEffect submitted.

(** CALL 0005H at address 0 and RET at address 5. *)
Definition call_ret_state : CPU8085 :=
  writeByte 0x0005 0xC9 (loadProgram 0x0000 [0xCD; 0x05; 0x00] new_CPU8085).

(** Accumulator 0x5A; OUT 07H, IN 07H at address 0. *)
Definition out_in_state : CPU8085 :=
  set_A 0x5A (loadProgram 0x0000 [0xD3; 0x07; 0xDB; 0x07] new_CPU8085).

(** The program MVI A,25H; MVI B,35H; ADD B; HLT loaded at 0x2000 through
    the keypad, started with GO 2000 and stepped four times. *)
Definition add_program_final : CPU8085 :=
  step (step (step (step
    (with_halted false (set_PC 0x2000
      (writeByte 0x2005 0x76 (writeByte 0x2004 0x80 (writeByte 0x2003 0x35
      (writeByte 0x2002 0x06 (writeByte 0x2001 0x25 (writeByte 0x2000 0x3E
         new_CPU8085))))))))))).

(** * Part II: lemmas and theorems *)

(** [step] on a running processor ([Hh]) whose next byte is known ([Hop]):
    unfold it down to [executeInstruction] at that byte. *)
Ltac fetch Hh Hop := unfold step; rewrite Hh, Hop; cbv zeta.

(** One goal per opcode of a list, from a hypothesis [In opcode list]. *)
Ltac each_opcode Hin :=
  simpl in Hin;
  repeat (destruct Hin as [Hin | Hin]; [subst | ]); [ .. | contradiction ].

(** The 32 assignments of the five flags. *)
Ltac case_flags s :=
  unfold pswFlags_of, flag_S, flag_Z, flag_AC, flag_P, flag_CY;
  destruct (flags s) as [[] [] [] [] []].

(** ** Arithmetic facts used throughout *)

Lemma check_below_sound (n : nat) (f : Z -> bool) :
  check_below n f = true -> forall z, 0 <= z < Z.of_nat n -> f z = true.
Proof.
  unfold check_below. intros Hall z Hz.
  rewrite forallb_forall in Hall. apply Hall.
  apply in_map_iff. exists (Z.to_nat z). split; [lia|].
  apply in_seq. lia.
Qed.

Lemma land_byte_id (a : Z) : 0 <= a < 256 -> Z.land a 0xFF = a.
Proof.
  intros Ha. change 0xFF with (Z.ones 8).
  rewrite Z.land_ones by lia. apply Z.mod_small. exact Ha.
Qed.

Lemma land_byte_range (a : Z) : 0 <= Z.land a 0xFF < 256.
Proof.
  change 0xFF with (Z.ones 8). rewrite Z.land_ones by lia.
  apply Z.mod_pos_bound. lia.
Qed.

Lemma land_nibble_range (a : Z) : 0 <= Z.land a 0x0F < 16.
Proof.
  change 0x0F with (Z.ones 4). rewrite Z.land_ones by lia.
  apply Z.mod_pos_bound. lia.
Qed.

Lemma land_word_range (a : Z) : 0 <= Z.land a 0xFFFF < 65536.
Proof.
  change 0xFFFF with (Z.ones 16). rewrite Z.land_ones by lia.
  apply Z.mod_pos_bound. lia.
Qed.

Lemma land_word_id (a : Z) : 0 <= a < 65536 -> Z.land a 0xFFFF = a.
Proof.
  intros Ha. change 0xFFFF with (Z.ones 16).
  rewrite Z.land_ones by lia. apply Z.mod_small. exact Ha.
Qed.

Lemma land_byte_idem (v : Z) : Z.land (Z.land v 0xFF) 0xFF = Z.land v 0xFF.
Proof. rewrite <- Z.land_assoc. reflexivity. Qed.

Lemma land_word_idem (v : Z) : Z.land (Z.land v 0xFFFF) 0xFFFF = Z.land v 0xFFFF.
Proof. rewrite <- Z.land_assoc. reflexivity. Qed.

(** Bit 4 of a sum of two nibbles (and a carry) is set exactly when the sum
    reaches 16. *)
Lemma nibble_carry (n : Z) :
  0 <= n < 32 -> negb (Z.land n 0x10 =? 0) = (16 <=? n).
Proof.
  intros Hn.
  apply (check_below_sound 32
           (fun n => Bool.eqb (negb (Z.land n 0x10 =? 0)) (16 <=? n))) in Hn.
  - apply Bool.eqb_prop. exact Hn.
  - vm_compute. reflexivity.
Qed.

Lemma sign_bit_byte (v : Z) :
  0 <= v < 256 -> negb (Z.land v 0x80 =? 0) = Z.testbit v 7.
Proof.
  intros Hv.
  apply (check_below_sound 256
           (fun v => Bool.eqb (negb (Z.land v 0x80 =? 0)) (Z.testbit v 7))) in Hv.
  - apply Bool.eqb_prop. exact Hv.
  - vm_compute. reflexivity.
Qed.

(** The counting loop of [updateZSPFlags] computes the parity of the number
    of set bits. *)
Lemma parityLoop_popcount (v : Z) :
  0 <= v < 256 -> (parityLoop 8 0 v 0 mod 2 =? 0) = Nat.even (popcount v).
Proof.
  intros Hv.
  apply (check_below_sound 256
           (fun v => Bool.eqb (parityLoop 8 0 v 0 mod 2 =? 0)
                              (Nat.even (popcount v)))) in Hv.
  - apply Bool.eqb_prop. exact Hv.
  - vm_compute. reflexivity.
Qed.

(** Splitting a 16-bit word into its two bytes and joining them again. *)
Lemma join_bytes (high low : Z) :
  0 <= high < 256 -> 0 <= low < 256 ->
  Z.lor (Z.shiftl high 8) low = high * 256 + low.
Proof.
  intros Hh Hl.
  rewrite Z.shiftl_mul_pow2 by lia. change (2 ^ 8) with 256.
  rewrite <- Z.lxor_lor, <- Z.add_nocarry_lxor; try reflexivity.
  all: apply Z.bits_inj'; intros n Hn; rewrite Z.land_spec, Z.bits_0.
  all: destruct (Z.lt_ge_cases n 8) as [Hlt | Hge].
  all: try (change 256 with (2 ^ 8); rewrite Z.mul_pow2_bits_low by lia; reflexivity).
  all: rewrite (Z.bits_above_log2 low n), andb_false_r; try reflexivity; try lia.
  all: destruct (Z.eq_dec low 0) as [-> | Hnz]; [simpl; lia | ].
  all: apply Z.log2_lt_pow2; try lia.
  all: apply Z.lt_le_trans with (2 ^ 8); [change (2 ^ 8) with 256; lia | ].
  all: apply Z.pow_le_mono_r; lia.
Qed.

Lemma word_high_byte (v : Z) :
  0 <= v < 65536 -> Z.land (Z.shiftr v 8) 0xFF = v / 256.
Proof.
  intros Hv. rewrite Z.shiftr_div_pow2 by lia. change (2 ^ 8) with 256.
  apply land_byte_id. split.
  - apply Z.div_pos; lia.
  - apply Z.div_lt_upper_bound; lia.
Qed.

Lemma word_low_byte (v : Z) : Z.land v 0xFF = v mod 256.
Proof. change 0xFF with (Z.ones 8). rewrite Z.land_ones by lia. reflexivity. Qed.

Lemma split_join_word (v : Z) :
  0 <= v < 65536 ->
  Z.lor (Z.shiftl (Z.land (Z.shiftr v 8) 0xFF) 8) (Z.land v 0xFF) = v.
Proof.
  intros Hv. rewrite word_high_byte, word_low_byte by exact Hv.
  rewrite join_bytes.
  - pose proof (Z.div_mod v 256). lia.
  - split; [apply Z.div_pos; lia | apply Z.div_lt_upper_bound; lia].
  - apply Z.mod_pos_bound. lia.
Qed.

Lemma low_byte_join (high low : Z) :
  0 <= high < 256 -> 0 <= low < 256 ->
  Z.land (Z.lor (Z.shiftl high 8) low) 0xFF = low.
Proof.
  intros Hh Hl. rewrite join_bytes, word_low_byte by assumption.
  rewrite Z.add_comm, Z.mod_add by lia. apply Z.mod_small. exact Hl.
Qed.

Lemma high_byte_join (high low : Z) :
  0 <= high < 256 -> 0 <= low < 256 ->
  Z.shiftr (Z.lor (Z.shiftl high 8) low) 8 = high.
Proof.
  intros Hh Hl. rewrite join_bytes by assumption.
  rewrite Z.shiftr_div_pow2 by lia. change (2 ^ 8) with 256.
  rewrite Z.add_comm, Z.div_add by lia.
  rewrite Z.div_small by exact Hl. reflexivity.
Qed.

Lemma advance_twice (pc : Z) :
  Z.land (Z.land (pc + 1) 0xFFFF + 1) 0xFFFF = Z.land (pc + 2) 0xFFFF.
Proof.
  change 0xFFFF with (Z.ones 16). rewrite !Z.land_ones by lia.
  rewrite Z.add_mod_idemp_l by lia. f_equal. lia.
Qed.

Lemma land_lxor_distr (a b c : Z) :
  Z.land (Z.lxor a b) c = Z.lxor (Z.land a c) (Z.land b c).
Proof.
  apply Z.bits_inj'. intros n _.
  rewrite Z.land_spec, !Z.lxor_spec, !Z.land_spec.
  destruct (Z.testbit a n), (Z.testbit b n), (Z.testbit c n); reflexivity.
Qed.

(** ** Flag helpers *)

Lemma updateZSPFlags_S value s :
  flag_S (updateZSPFlags value s) = negb (Z.land (Z.land value 0xFF) 0x80 =? 0).
Proof. reflexivity. Qed.

Lemma updateZSPFlags_Z value s :
  flag_Z (updateZSPFlags value s) = (Z.land value 0xFF =? 0).
Proof. reflexivity. Qed.

Lemma updateZSPFlags_P value s :
  flag_P (updateZSPFlags value s) = (parityLoop 8 0 (Z.land value 0xFF) 0 mod 2 =? 0).
Proof. reflexivity. Qed.

Lemma add8bit_result val1 val2 carryIn s :
  fst (add8bit val1 val2 carryIn s)
  = Z.land (Z.land val1 0xFF + Z.land val2 0xFF + (if carryIn then 1 else 0)) 0xFF.
Proof. reflexivity. Qed.

(** [add8bit] and [sub8bit] write all five flags from their arguments alone,
    and touch nothing but the flags. *)
Lemma add8bit_flags_indep val1 val2 carryIn s1 s2 :
  flags (snd (add8bit val1 val2 carryIn s1)) = flags (snd (add8bit val1 val2 carryIn s2)).
Proof. reflexivity. Qed.

Lemma sub8bit_flags_indep val1 val2 borrowIn s1 s2 :
  flags (snd (sub8bit val1 val2 borrowIn s1)) = flags (snd (sub8bit val1 val2 borrowIn s2)).
Proof. reflexivity. Qed.

Lemma add8bit_frame val1 val2 carryIn s :
  let s' := snd (add8bit val1 val2 carryIn s) in
  registers s' = registers s /\ memory s' = memory s /\
  halted s' = halted s /\ ioPorts s' = ioPorts s.
Proof. repeat split. Qed.

Lemma sub8bit_frame val1 val2 borrowIn s :
  let s' := snd (sub8bit val1 val2 borrowIn s) in
  registers s' = registers s /\ memory s' = memory s /\
  halted s' = halted s /\ ioPorts s' = ioPorts s.
Proof. repeat split. Qed.

(** ** Memory reads after writes *)

Lemma u8_get_set_same (len : Z) (arr : gmap Z Z) (i v : Z) :
  0 <= i < len -> u8_get (u8_set len arr i v) i = v mod 256.
Proof.
  intros Hi. unfold u8_get, u8_set.
  replace ((0 <=? i) && (i <? len)) with true by (symmetry; apply andb_true_iff; lia).
  rewrite lookup_insert_eq. reflexivity.
Qed.

Lemma u8_get_set_other (len : Z) (arr : gmap Z Z) (i j v : Z) :
  i <> j -> u8_get (u8_set len arr i v) j = u8_get arr j.
Proof.
  intros Hij. unfold u8_get, u8_set.
  destruct ((0 <=? i) && (i <? len)); [|reflexivity].
  rewrite lookup_insert_ne by exact Hij. reflexivity.
Qed.

Lemma readByte_writeByte_same (s : CPU8085) (a a' v : Z) :
  Z.land a 0xFFFF = Z.land a' 0xFFFF ->
  readByte (writeByte a v s) a' = Z.land v 0xFF.
Proof.
  intros Ha. unfold readByte, writeByte. simpl. rewrite <- Ha.
  rewrite u8_get_set_same by apply land_word_range.
  apply Z.mod_small. apply land_byte_range.
Qed.

Lemma readByte_writeByte_other (s : CPU8085) (a a' v : Z) :
  Z.land a 0xFFFF <> Z.land a' 0xFFFF ->
  readByte (writeByte a v s) a' = readByte s a'.
Proof.
  intros Ha. unfold readByte, writeByte. simpl.
  apply u8_get_set_other. exact Ha.
Qed.

Lemma readByte_masked (s : CPU8085) (address : Z) :
  readByte s (Z.land address 0xFFFF) = readByte s address.
Proof. unfold readByte. rewrite land_word_idem. reflexivity. Qed.

(** ** The range invariant holds in every reachable state *)

Create HintDb wf discriminated.

Lemma byte_land_FF v : byte (Z.land v 0xFF).
Proof. apply land_byte_range. Qed.
Lemma word_land_FFFF v : word (Z.land v 0xFFFF).
Proof. apply land_word_range. Qed.

Lemma byte_is_masked v : byte v -> v = Z.land v 0xFF.
Proof. intros Hv. symmetry. apply land_byte_id. exact Hv. Qed.

Lemma byte_land a b : byte a -> byte b -> byte (Z.land a b).
Proof.
  intros Ha _. rewrite (byte_is_masked a Ha).
  rewrite <- Z.land_assoc, (Z.land_comm 0xFF b), Z.land_assoc. apply byte_land_FF.
Qed.

Lemma byte_lor a b : byte a -> byte b -> byte (Z.lor a b).
Proof.
  intros Ha Hb. rewrite (byte_is_masked a Ha), (byte_is_masked b Hb).
  rewrite <- Z.land_lor_distr_l. apply byte_land_FF.
Qed.

Lemma byte_lxor a b : byte a -> byte b -> byte (Z.lxor a b).
Proof.
  intros Ha Hb. rewrite (byte_is_masked a Ha), (byte_is_masked b Hb).
  rewrite <- land_lxor_distr. apply byte_land_FF.
Qed.

Lemma word_join h l : byte h -> byte l -> word (Z.lor (Z.shiftl h 8) l).
Proof. unfold byte, word. intros Hh Hl. rewrite join_bytes by assumption. lia. Qed.

Lemma wf_array_get len arr i : wf_array len arr -> byte (u8_get arr i).
Proof.
  intros Hwf. unfold u8_get. destruct (arr !! i) as [v|] eqn:Hi; simpl.
  - apply (Hwf i v Hi).
  - unfold byte. lia.
Qed.

Lemma wf_array_set len arr i v : wf_array len arr -> wf_array len (u8_set len arr i v).
Proof.
  intros Hwf. unfold u8_set.
  destruct ((0 <=? i) && (i <? len)) eqn:Hr; [|exact Hwf].
  apply andb_true_iff in Hr. destruct Hr as [H0 H1].
  apply map_Forall_insert_2; [|exact Hwf].
  split; [lia|]. unfold byte. apply Z.mod_pos_bound. lia.
Qed.

(** Field writes keep the invariant when the value written is in range. *)
Ltac wf_fields s :=
  destruct s as [[? ? ? ? ? ? ? ? ?] ? ? ? ?];
  unfold wf, wf_registers; cbn; tauto.

Lemma wf_set_A v s : byte v -> wf s -> wf (set_A v s).
Proof. wf_fields s. Qed.
Lemma wf_set_B v s : byte v -> wf s -> wf (set_B v s).
Proof. wf_fields s. Qed.
Lemma wf_set_C v s : byte v -> wf s -> wf (set_C v s).
Proof. wf_fields s. Qed.
Lemma wf_set_D v s : byte v -> wf s -> wf (set_D v s).
Proof. wf_fields s. Qed.
Lemma wf_set_E v s : byte v -> wf s -> wf (set_E v s).
Proof. wf_fields s. Qed.
Lemma wf_set_H v s : byte v -> wf s -> wf (set_H v s).
Proof. wf_fields s. Qed.
Lemma wf_set_L v s : byte v -> wf s -> wf (set_L v s).
Proof. wf_fields s. Qed.
Lemma wf_set_SP v s : word v -> wf s -> wf (set_SP v s).
Proof. wf_fields s. Qed.
Lemma wf_set_PC v s : word v -> wf s -> wf (set_PC v s).
Proof. wf_fields s. Qed.
Lemma wf_with_flags f s : wf s -> wf (with_flags f s).
Proof. wf_fields s. Qed.
Lemma wf_with_halted h s : wf s -> wf (with_halted h s).
Proof. wf_fields s. Qed.
Lemma wf_set_S b s : wf s -> wf (set_S b s).
Proof. apply wf_with_flags. Qed.
Lemma wf_set_Z b s : wf s -> wf (set_Z b s).
Proof. apply wf_with_flags. Qed.
Lemma wf_set_AC b s : wf s -> wf (set_AC b s).
Proof. apply wf_with_flags. Qed.
Lemma wf_set_P b s : wf s -> wf (set_P b s).
Proof. apply wf_with_flags. Qed.
Lemma wf_set_CY b s : wf s -> wf (set_CY b s).
Proof. apply wf_with_flags. Qed.

Lemma byte_reg_A s : wf s -> byte (reg_A s).
Proof. wf_fields s. Qed.
Lemma byte_reg_B s : wf s -> byte (reg_B s).
Proof. wf_fields s. Qed.
Lemma byte_reg_C s : wf s -> byte (reg_C s).
Proof. wf_fields s. Qed.
Lemma byte_reg_D s : wf s -> byte (reg_D s).
Proof. wf_fields s. Qed.
Lemma byte_reg_E s : wf s -> byte (reg_E s).
Proof. wf_fields s. Qed.
Lemma byte_reg_H s : wf s -> byte (reg_H s).
Proof. wf_fields s. Qed.
Lemma byte_reg_L s : wf s -> byte (reg_L s).
Proof. wf_fields s. Qed.
Lemma word_reg_SP s : wf s -> word (reg_SP s).
Proof. wf_fields s. Qed.
Lemma word_reg_PC s : wf s -> word (reg_PC s).
Proof. wf_fields s. Qed.

Lemma byte_readByte s address : wf s -> byte (readByte s address).
Proof. intros (_ & Hm & _). apply (wf_array_get MEMORY_SIZE). exact Hm. Qed.

Lemma byte_port s port : wf s -> byte (u8_get (ioPorts s) port).
Proof. intros (_ & _ & Hio). apply (wf_array_get IO_SIZE). exact Hio. Qed.

Lemma wf_writeByte address value s : wf s -> wf (writeByte address value s).
Proof.
  intros (Hr & Hm & Hio). split; [exact Hr|]. split; [|exact Hio].
  apply wf_array_set. exact Hm.
Qed.

Lemma wf_port_store port value s :
  wf s -> wf (with_ioPorts (u8_set IO_SIZE (ioPorts s) port value) s).
Proof.
  intros (Hr & Hm & Hio). split; [exact Hr|]. split; [exact Hm|].
  apply wf_array_set. exact Hio.
Qed.

Lemma word_readWord s address : wf s -> word (readWord s address).
Proof. intros Hwf. apply word_join; apply byte_readByte; exact Hwf. Qed.

Lemma word_getHL s : wf s -> word (getHL s).
Proof. intros Hwf. apply word_join; [apply byte_reg_H | apply byte_reg_L]; exact Hwf. Qed.
Lemma word_getBC s : wf s -> word (getBC s).
Proof. intros Hwf. apply word_join; [apply byte_reg_B | apply byte_reg_C]; exact Hwf. Qed.
Lemma word_getDE s : wf s -> word (getDE s).
Proof. intros Hwf. apply word_join; [apply byte_reg_D | apply byte_reg_E]; exact Hwf. Qed.

Lemma byte_literal v : (0 <=? v) && (v <? 256) = true -> byte v.
Proof. intros Hv. apply andb_true_iff in Hv. unfold byte. lia. Qed.
Lemma word_literal v : (0 <=? v) && (v <? 65536) = true -> word v.
Proof. intros Hv. apply andb_true_iff in Hv. unfold word. lia. Qed.

Lemma wf_if (c : bool) (s1 s2 : CPU8085) : wf s1 -> wf s2 -> wf (if c then s1 else s2).
Proof. destruct c; auto. Qed.

#[export] Hint Resolve byte_land_FF word_land_FFFF byte_land byte_lor byte_lxor word_join
  wf_set_A wf_set_B wf_set_C wf_set_D wf_set_E wf_set_H wf_set_L wf_set_SP wf_set_PC
  wf_with_flags wf_with_halted wf_set_S wf_set_Z wf_set_AC wf_set_P wf_set_CY
  byte_reg_A byte_reg_B byte_reg_C byte_reg_D byte_reg_E byte_reg_H byte_reg_L
  word_reg_SP word_reg_PC byte_readByte byte_port wf_writeByte wf_port_store
  word_readWord word_getHL word_getBC word_getDE wf_if : wf.

Lemma wf_updateZSPFlags value s : wf s -> wf (updateZSPFlags value s).
Proof. intros Hwf. unfold updateZSPFlags. auto with wf. Qed.

Lemma wf_add8bit val1 val2 carryIn s :
  wf s -> byte (fst (add8bit val1 val2 carryIn s)) /\ wf (snd (add8bit val1 val2 carryIn s)).
Proof.
  intros Hwf. split; [apply byte_land_FF|].
  unfold add8bit. cbn [snd]. apply wf_updateZSPFlags. auto with wf.
Qed.

Lemma wf_sub8bit val1 val2 borrowIn s :
  wf s -> byte (fst (sub8bit val1 val2 borrowIn s)) /\ wf (snd (sub8bit val1 val2 borrowIn s)).
Proof.
  intros Hwf. split; [apply byte_land_FF|].
  unfold sub8bit. cbn [snd]. apply wf_updateZSPFlags. auto with wf.
Qed.

Lemma wf_setHL value s : wf s -> wf (setHL value s).
Proof. intros Hwf. unfold setHL. auto with wf. Qed.
Lemma wf_setBC value s : wf s -> wf (setBC value s).
Proof. intros Hwf. unfold setBC. auto with wf. Qed.
Lemma wf_setDE value s : wf s -> wf (setDE value s).
Proof. intros Hwf. unfold setDE. auto with wf. Qed.
Lemma wf_setPSW value s : wf s -> wf (setPSW value s).
Proof. intros Hwf. unfold setPSW. auto 10 with wf. Qed.
Lemma wf_dad val s : wf s -> wf (dad val s).
Proof. intros Hwf. unfold dad. apply wf_setHL. auto with wf. Qed.
Lemma wf_pushWord value s : wf s -> wf (pushWord value s).
Proof. intros Hwf. unfold pushWord. auto 10 with wf. Qed.
Lemma wf_popWord s : wf s -> word (fst (popWord s)) /\ wf (snd (popWord s)).
Proof. intros Hwf. unfold popWord. cbn [fst snd]. split; auto 10 with wf. Qed.
Lemma wf_advancePC n s : wf s -> wf (advancePC n s).
Proof. intros Hwf. unfold advancePC. auto with wf. Qed.
Lemma wf_writeWord address value s : wf s -> wf (writeWord address value s).
Proof. intros Hwf. unfold writeWord. auto with wf. Qed.

#[export] Hint Resolve wf_updateZSPFlags wf_setHL wf_setBC wf_setDE wf_setPSW wf_dad
  wf_pushWord wf_advancePC wf_writeWord : wf.
#[export] Hint Extern 1 (word _) => (apply word_literal; reflexivity) : wf.
#[export] Hint Extern 1 (byte _) => (apply byte_literal; reflexivity) : wf.

(** Name the result and the state that [add8bit], [sub8bit] or [popWord]
    return, with what is known of them. *)
Ltac wf_pair :=
  match goal with
  | |- context [add8bit ?a ?b ?c ?s] =>
      let Hp := fresh "Hp" in
      assert (Hp : byte (fst (add8bit a b c s)) /\ wf (snd (add8bit a b c s)))
        by (apply wf_add8bit; auto with wf);
      destruct (add8bit a b c s) as [? ?]; cbn [fst snd] in Hp; destruct Hp
  | |- context [sub8bit ?a ?b ?c ?s] =>
      let Hp := fresh "Hp" in
      assert (Hp : byte (fst (sub8bit a b c s)) /\ wf (snd (sub8bit a b c s)))
        by (apply wf_sub8bit; auto with wf);
      destruct (sub8bit a b c s) as [? ?]; cbn [fst snd] in Hp; destruct Hp
  | |- context [popWord ?s] =>
      let Hp := fresh "Hp" in
      assert (Hp : word (fst (popWord s)) /\ wf (snd (popWord s)))
        by (apply wf_popWord; auto with wf);
      destruct (popWord s) as [? ?]; cbn [fst snd] in Hp; destruct Hp
  end.

Ltac wf_case :=
  cbv beta iota zeta delta [executeInstruction];
  first
    [ solve [auto 12 with wf]
    | wf_pair; solve [auto 12 with wf]
    | repeat match goal with
             | |- context [if ?c then _ else _] => destruct c
             end;
      wf_pair; solve [auto 12 with wf] ].

Lemma wf_executeInstruction (opcode : Z) (s : CPU8085) :
  wf s -> wf (executeInstruction opcode s).
Proof.
  intros Hwf.
  destruct opcode as [|p|p]; [wf_case | | wf_case].
  do 8 (try (destruct p as [p|p|])); wf_case.
Qed.

Lemma wf_step (s : CPU8085) : wf s -> wf (step s).
Proof.
  intros Hwf. unfold step. destruct (halted s); [exact Hwf|].
  cbv zeta. apply wf_executeInstruction. auto with wf.
Qed.

Lemma wf_new_CPU8085 : wf new_CPU8085.
Proof.
  split; [|split; apply map_Forall_empty].
  unfold wf_registers, byte, word. cbn. lia.
Qed.

Lemma wf_reset (s : CPU8085) : wf s -> wf (reset s).
Proof.
  intros (_ & Hm & Hio). split; [|split; assumption].
  unfold wf_registers, byte, word. cbn. lia.
Qed.

Theorem reachable_wf (s : CPU8085) : reachable s -> wf s.
Proof.
  induction 1 as [ | s _ IH | s _ IH | s address value _ IH | s startAddress _ IH Hrange ].
  - apply wf_new_CPU8085.
  - apply wf_reset, IH.
  - apply wf_step, IH.
  - apply wf_writeByte, IH.
  - apply wf_with_halted, wf_set_PC; [exact Hrange | exact IH].
Qed.

(** In a reachable state the accumulator is a byte, as [PSW_layout_roundtrip]
    asks, and so is every byte read from memory. *)
Corollary reachable_ranges (s : CPU8085) :
  reachable s ->
  0 <= reg_A s < 256 /\ 0 <= reg_SP s < 65536 /\ 0 <= reg_PC s < 65536 /\
  (forall address, 0 <= readByte s address < 256).
Proof.
  intros Hr. apply reachable_wf in Hr.
  split; [apply byte_reg_A; exact Hr|].
  split; [apply word_reg_SP; exact Hr|].
  split; [apply word_reg_PC; exact Hr|].
  intros address. apply byte_readByte. exact Hr.
Qed.

(** ** Scenarios of the specification *)

(** MVI A,25H; MVI B,35H; ADD B; HLT at 0x2000. *)
Example add_program_scenario :
  let s0 := set_PC 0x2000
              (loadProgram 0x2000 [0x3E; 0x25; 0x06; 0x35; 0x80; 0x76] new_CPU8085) in
  let s4 := steps 4 s0 in
  reg_A s4 = 0x5A /\ flag_Z s4 = false /\ flag_CY s4 = false /\ halted s4 = true.
Proof. repeat split. Qed.

(** ** C1: the 8-bit adder *)

(** C1. For 8-bit [a] and [b], [add8bit a b false] returns [(a+b) & 0xFF],
    sets Carry iff [a+b > 255], Auxiliary-Carry iff the sum of the two low
    nibbles reaches 16, Zero iff the masked result is 0, Sign iff bit 7 of
    the masked result is set, and Parity iff the masked result has an even
    number of set bits. *)
Theorem add8bit_spec (a b : Z) (s : CPU8085) :
  0 <= a < 256 -> 0 <= b < 256 ->
  let result := fst (add8bit a b false s) in
  let s' := snd (add8bit a b false s) in
  result = Z.land (a + b) 0xFF /\
  (flag_CY s' = true <-> a + b > 255) /\
  (flag_AC s' = true <-> 16 <= Z.land a 0x0F + Z.land b 0x0F) /\
  (flag_Z s' = true <-> result = 0) /\
  (flag_S s' = true <-> Z.testbit result 7 = true) /\
  (flag_P s' = true <-> Nat.Even (popcount result)).
Proof.
  intros Ha Hb result s'.
  assert (Hres : result = Z.land (a + b) 0xFF).
  { subst result.
    rewrite add8bit_result, (land_byte_id a), (land_byte_id b) by assumption.
    f_equal. lia. }
  assert (Hrange : 0 <= result < 256) by (rewrite Hres; apply land_byte_range).
  assert (HS : flag_S s' = negb (Z.land (Z.land result 0xFF) 0x80 =? 0)) by reflexivity.
  assert (HZ : flag_Z s' = (Z.land result 0xFF =? 0)) by reflexivity.
  assert (HP : flag_P s' = (parityLoop 8 0 (Z.land result 0xFF) 0 mod 2 =? 0))
    by reflexivity.
  assert (HCY : flag_CY s' = (0xFF <? Z.land a 0xFF + Z.land b 0xFF + 0)) by reflexivity.
  assert (HAC : flag_AC s'
                = negb (Z.land (Z.land a 0x0F + Z.land b 0x0F + 0) 0x10 =? 0))
    by reflexivity.
  rewrite land_byte_id in HS, HZ, HP by assumption.
  rewrite (land_byte_id a), (land_byte_id b) in HCY by assumption.
  pose proof (land_nibble_range a) as Hna.
  pose proof (land_nibble_range b) as Hnb.
  rewrite nibble_carry in HAC by lia.
  rewrite sign_bit_byte in HS by assumption.
  rewrite parityLoop_popcount in HP by assumption.
  split; [exact Hres|].
  rewrite HCY, HAC, HZ, HS, HP.
  rewrite Z.ltb_lt, Z.leb_le, Z.eqb_eq, Nat.even_spec.
  repeat split; intros; lia || assumption.
Qed.

Lemma add8bit_spec_witness :
  let result := fst (add8bit 0xC8 0x64 false new_CPU8085) in
  let s' := snd (add8bit 0xC8 0x64 false new_CPU8085) in
  result = Z.land (0xC8 + 0x64) 0xFF /\
  (flag_CY s' = true <-> 0xC8 + 0x64 > 255) /\
  (flag_AC s' = true <-> 16 <= Z.land 0xC8 0x0F + Z.land 0x64 0x0F) /\
  (flag_Z s' = true <-> result = 0) /\
  (flag_S s' = true <-> Z.testbit result 7 = true) /\
  (flag_P s' = true <-> Nat.Even (popcount result)).
Proof. apply (add8bit_spec 0xC8 0x64 new_CPU8085); lia. Defined.

(** ** C2: increment and decrement keep Carry *)

(** C2. On a running processor whose next opcode is an INR (resp. DCR),
    [step] leaves Carry as it was and sets Sign, Zero, Auxiliary-Carry and
    Parity as [add8bit x 1 false] (resp. [sub8bit x 1 false]) sets them for
    the operand [x]. It holds in every state, reachable or not. *)
Theorem step_INR_DCR_flags (s : CPU8085) (opcode : Z) :
  halted s = false ->
  readByte s (reg_PC s) = opcode ->
  let x := incdec_operand opcode s in
  (In opcode INR_opcodes ->
     flag_CY (step s) = flag_CY s /\
     same_SZAP (flags (step s)) (flags (snd (add8bit x 1 false s)))) /\
  (In opcode DCR_opcodes ->
     flag_CY (step s) = flag_CY s /\
     same_SZAP (flags (step s)) (flags (snd (sub8bit x 1 false s)))).
Proof.
  intros Hh Hop x. subst x.
  split; intros Hin; each_opcode Hin;
    match goal with
    | Heq : _ = readByte _ _ |- _ => symmetry in Heq; fetch Hh Heq
    end;
    (split; [reflexivity | repeat split]).
Qed.

Lemma step_INR_DCR_flags_witness :
  (flag_CY (step inr_a_state) = flag_CY inr_a_state /\
   same_SZAP (flags (step inr_a_state))
             (flags (snd (add8bit (reg_A inr_a_state) 1 false inr_a_state)))) /\
  (flag_CY (step dcr_b_state) = flag_CY dcr_b_state /\
   same_SZAP (flags (step dcr_b_state))
             (flags (snd (sub8bit (reg_B dcr_b_state) 1 false dcr_b_state)))).
Proof.
  split.
  - apply (step_INR_DCR_flags inr_a_state 0x3C); [reflexivity | reflexivity | ].
    simpl. tauto.
  - apply (step_INR_DCR_flags dcr_b_state 0x05); [reflexivity | reflexivity | ].
    simpl. tauto.
Defined.

Example inr_a_scenario :
  reg_A (step inr_a_state) = 0x00 /\
  flags (step inr_a_state) = Flags.mk false true true true true.
Proof. split; reflexivity. Qed.

Example dcr_b_scenario :
  reg_B (step dcr_b_state) = 0xFF /\
  flags (step dcr_b_state) = Flags.mk true false true true false.
Proof. split; reflexivity. Qed.

(** ** The opcodes without a [case]

    The bytes on which [executeInstruction] sets [halted]: HLT (0x76) and the
    37 bytes that reach the [default] branch. *)

Example opcodes_that_halt :
  filter (fun opcode => halted (executeInstruction opcode new_CPU8085))
         (map Z.of_nat (seq 0 256))
  = [0x08; 0x10; 0x18; 0x28; 0x38; 0x76;
     0xA2; 0xA3; 0xA4; 0xA5; 0xA9; 0xAA; 0xAB; 0xAC; 0xAD;
     0xB1; 0xB2; 0xB3; 0xB4; 0xB5; 0xB9; 0xBA; 0xBB; 0xBC; 0xBD;
     0xCB; 0xD9; 0xDD; 0xE0; 0xE4; 0xE8; 0xEC; 0xED;
     0xF0; 0xF4; 0xF8; 0xFC; 0xFD].
Proof. vm_compute. reflexivity. Qed.

(** ** C3: the bytes the instruction table lists as NOP *)

(** What [step] does on a running processor for the one NOP the engine has,
    0x00. *)
Lemma step_NOP (s : CPU8085) :
  halted s = false -> readByte s (reg_PC s) = 0x00 ->
  step s = set_PC (Z.land (reg_PC s + 1) 0xFFFF) s.
Proof. intros Hh Hop. fetch Hh Hop. reflexivity. Qed.





Example NOP_alias_wraps :
  let s := writeByte 0xFFFF 0xCB (set_PC 0xFFFF new_CPU8085) in
  reg_PC (step s) = 0x0000 /\ halted (step s) = true.
Proof. split; reflexivity. Qed.

(** ** C4: conditional calls and returns *)

(** The Zero and Carry calls: taken, the address after the three-byte
    instruction is pushed and the program counter becomes the operand word;
    not taken, the program counter moves past the two operand bytes and
    nothing else changes. *)
Lemma step_Ccond_implemented (s : CPU8085) (opcode : Z) :
  halted s = false -> readByte s (reg_PC s) = opcode -> In opcode Ccond_implemented ->
  let s1 := set_PC (Z.land (reg_PC s + 1) 0xFFFF) s in
  let target := readWord s1 (reg_PC s1) in
  let after := Z.land (reg_PC s1 + 2) 0xFFFF in
  step s = if call_condition opcode s
           then set_PC target (pushWord after s1)
           else set_PC after s.
Proof.
  intros Hh Hop Hin. each_opcode Hin;
    match goal with
    | Heq : _ = readByte _ _ |- _ => symmetry in Heq; fetch Hh Heq
    end;
    unfold call_condition, executeInstruction;
    match goal with
    | |- context [flag_Z s] => change (flag_Z (set_PC ?x s)) with (flag_Z s);
                               destruct (flag_Z s)
    | |- context [flag_CY s] => change (flag_CY (set_PC ?x s)) with (flag_CY s);
                                destruct (flag_CY s)
    end; reflexivity.
Qed.

(** The Zero and Carry returns: taken, the program counter is popped; not
    taken, only the opcode byte has been stepped over. *)
Lemma step_Rcond_implemented (s : CPU8085) (opcode : Z) :
  halted s = false -> readByte s (reg_PC s) = opcode -> In opcode Rcond_implemented ->
  let s1 := set_PC (Z.land (reg_PC s + 1) 0xFFFF) s in
  step s = if ret_condition opcode s
           then set_PC (fst (popWord s1)) (snd (popWord s1))
           else s1.
Proof.
  intros Hh Hop Hin. each_opcode Hin;
    match goal with
    | Heq : _ = readByte _ _ |- _ => symmetry in Heq; fetch Hh Heq
    end;
    unfold ret_condition, executeInstruction;
    match goal with
    | |- context [flag_Z s] => change (flag_Z (set_PC ?x s)) with (flag_Z s);
                               destruct (flag_Z s)
    | |- context [flag_CY s] => change (flag_CY (set_PC ?x s)) with (flag_CY s);
                                destruct (flag_CY s)
    end; reflexivity.
Qed.

Example CZ_taken :
  step (branch_state 0xCC)
  = set_PC 0x1234 (pushWord 0x0003 (set_PC 0x0001 (branch_state 0xCC))).
Proof. reflexivity. Qed.

Example CNZ_not_taken :
  step (branch_state 0xC4) = set_PC 0x0003 (branch_state 0xC4).
Proof. reflexivity. Qed.

(** C4 (the code departs from it). The parity and sign calls and returns
    have no [case]: whether their condition holds or not, [step] moves the
    program counter over the opcode byte only and sets [halted]; nothing is
    pushed or popped. Evaluated on a fresh processor, where Parity is set
    and Sign is clear, so CPE, CP, RPE and RP should branch and CPO, CM, RPO
    and RM should fall through without halting. *)
Theorem parity_sign_Ccond_Rcond_halt :
  Forall (fun opcode =>
            let s0 := branch_state opcode in
            halted s0 = false /\
            readByte s0 (reg_PC s0) = opcode /\
            step s0 = with_halted true (set_PC 0x0001 s0) /\
            halted (step s0) = true /\
            reg_SP (step s0) = reg_SP s0)
         (Ccond_missing ++ Rcond_missing) /\
  call_condition 0xEC (branch_state 0xEC) = true /\
  call_condition 0xE4 (branch_state 0xE4) = false /\
  ret_condition 0xE8 (branch_state 0xE8) = true /\
  ret_condition 0xE0 (branch_state 0xE0) = false.
Proof. split; [repeat constructor | repeat split]. Qed.

(** ** C5: the stack *)

Lemma reg_SP_pushWord (v : Z) (s : CPU8085) :
  reg_SP (pushWord v s) = Z.land (Z.land (reg_SP s - 1) 0xFFFF - 1) 0xFFFF.
Proof. reflexivity. Qed.

Lemma readByte_pushWord (v : Z) (s : CPU8085) (a : Z) :
  let sp1 := Z.land (reg_SP s - 1) 0xFFFF in
  let sp2 := Z.land (sp1 - 1) 0xFFFF in
  readByte (pushWord v s) a
  = readByte (writeByte sp2 (Z.land v 0xFF)
                (writeByte sp1 (Z.land (Z.shiftr v 8) 0xFF) s)) a.
Proof. reflexivity. Qed.

Lemma fst_popWord (s : CPU8085) :
  fst (popWord s)
  = Z.lor (Z.shiftl (readByte s (Z.land (reg_SP s + 1) 0xFFFF)) 8)
          (readByte s (reg_SP s)).
Proof. reflexivity. Qed.

Lemma reg_SP_popWord (s : CPU8085) :
  reg_SP (snd (popWord s)) = Z.land (Z.land (reg_SP s + 1) 0xFFFF + 1) 0xFFFF.
Proof. reflexivity. Qed.

(** C5. If the value is a 16-bit word and the stack pointer is between 2 and
    65535 (so neither the two decrements nor the two increments wrap), then
    [pushWord] followed by [popWord] returns the value and restores the stack
    pointer, and right after the push the high byte sits at [SP0-1] and the
    low byte at [SP0-2]. *)
Theorem pushWord_popWord (s : CPU8085) (v : Z) :
  0 <= v < 65536 ->
  2 <= reg_SP s < 65536 ->
  let SP0 := reg_SP s in
  let s1 := pushWord v s in
  fst (popWord s1) = v /\
  reg_SP (snd (popWord s1)) = SP0 /\
  readByte s1 (SP0 - 1) = v / 256 /\
  readByte s1 (SP0 - 2) = v mod 256.
Proof.
  intros Hv Hsp SP0 s1.
  assert (Hsp1 : reg_SP s1 = SP0 - 2).
  { subst s1 SP0. rewrite reg_SP_pushWord.
    rewrite (land_word_id (reg_SP s - 1)) by lia.
    rewrite land_word_id by lia. lia. }
  assert (Hhigh : readByte s1 (SP0 - 1) = v / 256).
  { subst s1 SP0. rewrite readByte_pushWord. cbv zeta.
    rewrite (land_word_id (reg_SP s - 1)) by lia.
    rewrite (land_word_id (reg_SP s - 1 - 1)) by lia.
    rewrite readByte_writeByte_other by (rewrite !land_word_id by lia; lia).
    rewrite readByte_writeByte_same by reflexivity.
    rewrite land_byte_idem. apply word_high_byte. exact Hv. }
  assert (Hlow : readByte s1 (SP0 - 2) = v mod 256).
  { subst s1 SP0. rewrite readByte_pushWord. cbv zeta.
    rewrite (land_word_id (reg_SP s - 1)) by lia.
    rewrite (land_word_id (reg_SP s - 1 - 1)) by lia.
    rewrite readByte_writeByte_same by (f_equal; lia).
    rewrite land_byte_idem. apply word_low_byte. }
  repeat split; try assumption.
  - rewrite fst_popWord, Hsp1.
    rewrite (land_word_id (SP0 - 2 + 1)) by (subst SP0; lia).
    replace (SP0 - 2 + 1) with (SP0 - 1) by lia.
    rewrite Hhigh, Hlow. rewrite <- word_high_byte, <- word_low_byte by exact Hv.
    apply split_join_word. exact Hv.
  - rewrite reg_SP_popWord, Hsp1.
    rewrite (land_word_id (SP0 - 2 + 1)) by (subst SP0; lia).
    rewrite land_word_id by (subst SP0; lia). lia.
Qed.

Lemma pushWord_popWord_witness :
  let s1 := pushWord 0x1234 stack_state in
  fst (popWord s1) = 0x1234 /\
  reg_SP (snd (popWord s1)) = 0x2000 /\
  readByte s1 (0x2000 - 1) = 0x1234 / 256 /\
  readByte s1 (0x2000 - 2) = 0x1234 mod 256.
Proof.
  apply (pushWord_popWord stack_state 0x1234);
    [lia | change (2 <= 0x2000 < 65536); lia].
Defined.

Example push_1234_scenario :
  let s1 := pushWord 0x1234 stack_state in
  readByte s1 0x1FFF = 0x12 /\ readByte s1 0x1FFE = 0x34 /\
  reg_SP s1 = 0x1FFE /\ popWord s1 = (0x1234, set_SP 0x2000 s1).
Proof. repeat split. Qed.

(** Push then pop gives the word back wherever the stack pointer is, also
    when it wraps around the ends of memory. *)
Lemma popWord_pushWord_any (s : CPU8085) (v : Z) :
  0 <= v < 65536 -> fst (popWord (pushWord v s)) = v.
Proof.
  intros Hv. rewrite fst_popWord, reg_SP_pushWord, !readByte_pushWord. cbv zeta.
  set (sp1 := Z.land (reg_SP s - 1) 0xFFFF).
  set (sp2 := Z.land (sp1 - 1) 0xFFFF).
  assert (H1 : 0 <= sp1 < 65536) by apply land_word_range.
  assert (H2 : sp2 = (sp1 - 1) mod 65536).
  { subst sp2. change 0xFFFF with (Z.ones 16). rewrite Z.land_ones by lia. reflexivity. }
  assert (H3 : Z.land (sp2 + 1) 0xFFFF = sp1).
  { change 0xFFFF with (Z.ones 16). rewrite Z.land_ones by lia.
    change (2 ^ 16) with 65536. rewrite H2.
    rewrite Z.add_mod_idemp_l by lia.
    replace (sp1 - 1 + 1) with sp1 by lia. apply Z.mod_small. exact H1. }
  assert (H4 : sp2 <> sp1).
  { rewrite H2. destruct (Z.eq_dec sp1 0) as [-> | Hnz].
    - vm_compute. discriminate.
    - rewrite Z.mod_small by lia. lia. }
  assert (H5 : 0 <= sp2 < 65536) by apply land_word_range.
  rewrite H3.
  rewrite (readByte_writeByte_other _ sp2 sp1)
    by (rewrite !land_word_id by assumption; exact H4).
  rewrite !readByte_writeByte_same by reflexivity.
  rewrite !land_byte_idem. apply split_join_word. exact Hv.
Qed.

(** ** C6: reset *)

(** C6. After [reset], whatever the state before: A, B, C, D, E, H and L are
    0, SP is 0xFFFE, PC is 0x0000, the flags are S=false, Z=true, AC=false,
    P=true, CY=false, [halted] is false, and memory and the I/O ports are
    the arrays they were, so every byte reads as before. *)
Theorem reset_spec (s : CPU8085) :
  let s' := reset s in
  (reg_A s' = 0 /\ reg_B s' = 0 /\ reg_C s' = 0 /\ reg_D s' = 0 /\
   reg_E s' = 0 /\ reg_H s' = 0 /\ reg_L s' = 0) /\
  reg_SP s' = 0xFFFE /\ reg_PC s' = 0x0000 /\
  (flag_S s' = false /\ flag_Z s' = true /\ flag_AC s' = false /\
   flag_P s' = true /\ flag_CY s' = false) /\
  halted s' = false /\
  memory s' = memory s /\ ioPorts s' = ioPorts s /\
  (forall address, readByte s' address = readByte s address) /\
  (forall port, u8_get (ioPorts s') port = u8_get (ioPorts s) port).
Proof. cbv zeta. repeat split. Qed.

(** ** C7: stepping a halted processor *)

(** C7. When [halted] is set, [step] returns the state it was given:
    registers, flags, memory, ports and [halted] are all unchanged, and so
    stepping again changes nothing either. *)
Theorem step_halted (s : CPU8085) :
  halted s = true ->
  step s = s /\ reg_PC (step s) = reg_PC s /\ step (step s) = step s.
Proof.
  intros Hh.
  assert (Hstep : step s = s) by (unfold step; rewrite Hh; reflexivity).
  rewrite !Hstep. repeat split.
Qed.

Lemma step_halted_witness :
  step hlt_state = hlt_state /\
  reg_PC (step hlt_state) = reg_PC hlt_state /\
  step (step hlt_state) = step hlt_state.
Proof. apply (step_halted hlt_state). reflexivity. Defined.

Example hlt_scenario : halted hlt_state = true /\ reg_PC (steps 5 hlt_state) = 0x0001.
Proof. split; reflexivity. Qed.

(** ** C8: the packed status word *)

Lemma getPSW_eq (s : CPU8085) :
  getPSW s = Z.lor (Z.shiftl (reg_A s) 8) (pswFlags_of s).
Proof. reflexivity. Qed.

Lemma pswFlags_of_range (s : CPU8085) : 0 <= pswFlags_of s < 256.
Proof. case_flags s; cbv; (split; [intros Hc; discriminate Hc | reflexivity]). Qed.

Lemma pswFlags_of_bits (s : CPU8085) :
  Z.testbit (pswFlags_of s) 7 = flag_S s /\
  Z.testbit (pswFlags_of s) 6 = flag_Z s /\
  Z.testbit (pswFlags_of s) 5 = false /\
  Z.testbit (pswFlags_of s) 4 = flag_AC s /\
  Z.testbit (pswFlags_of s) 3 = false /\
  Z.testbit (pswFlags_of s) 2 = flag_P s /\
  Z.testbit (pswFlags_of s) 1 = true /\
  Z.testbit (pswFlags_of s) 0 = flag_CY s.
Proof. case_flags s; repeat split. Qed.

(** Decoding the flags byte gives the flags back. *)
Lemma pswFlags_of_decode (s : CPU8085) :
  let pswFlags := pswFlags_of s in
  Flags.mk (negb (Z.land pswFlags 0x80 =? 0)) (negb (Z.land pswFlags 0x40 =? 0))
           (negb (Z.land pswFlags 0x10 =? 0)) (negb (Z.land pswFlags 0x04 =? 0))
           (negb (Z.land pswFlags 0x01 =? 0))
  = flags s.
Proof. case_flags s; reflexivity. Qed.

Lemma getPSW_range (s : CPU8085) :
  0 <= reg_A s < 256 -> 0 <= getPSW s < 65536.
Proof.
  intros HA. pose proof (pswFlags_of_range s) as Hf.
  rewrite getPSW_eq, join_bytes by assumption. lia.
Qed.

Lemma setPSW_eq (value : Z) (s : CPU8085) :
  setPSW value s
  = with_flags
      (let pswFlags := Z.land value 0xFF in
       Flags.mk (negb (Z.land pswFlags 0x80 =? 0)) (negb (Z.land pswFlags 0x40 =? 0))
                (negb (Z.land pswFlags 0x10 =? 0)) (negb (Z.land pswFlags 0x04 =? 0))
                (negb (Z.land pswFlags 0x01 =? 0)))
      (set_A (Z.land (Z.shiftr value 8) 0xFF) s).
Proof. reflexivity. Qed.

(** [setPSW] applied to the status word of [s], in any state [s']: the
    accumulator and the flags become those of [s], and nothing else of [s']
    changes. *)
Lemma setPSW_getPSW (s s' : CPU8085) :
  0 <= reg_A s < 256 ->
  setPSW (getPSW s) s' = with_flags (flags s) (set_A (reg_A s) s').
Proof.
  intros HA. pose proof (pswFlags_of_range s) as Hf.
  rewrite setPSW_eq, getPSW_eq. cbv zeta.
  rewrite low_byte_join, high_byte_join by assumption.
  rewrite pswFlags_of_decode, land_byte_id by exact HA.
  reflexivity.
Qed.

(** [popWord] reads memory and the stack pointer only: overwriting the
    accumulator and the flags before it changes neither the word popped nor
    what it does to the rest of the state. *)
Lemma popWord_clobbered (f : Flags.t) (a : Z) (s : CPU8085) :
  popWord (with_flags f (set_A a s))
  = (fst (popWord s), with_flags f (set_A a (snd (popWord s)))).
Proof. reflexivity. Qed.

(** C8. With an 8-bit accumulator, the low byte of [getPSW] carries Sign in
    bit 7, Zero in bit 6, 0 in bit 5, Auxiliary-Carry in bit 4, 0 in bit 3,
    Parity in bit 2, 1 in bit 1 and Carry in bit 0, and the high byte is the
    accumulator. [setPSW] of that word, in whatever state [s'] it is
    called, puts back the accumulator and the five flags of [s] and changes
    nothing else of [s']; called in [s] itself it gives [s] back. So
    PUSH PSW (0xF5) followed by POP PSW (0xF1) leaves the accumulator and
    the flags as they were, also when the accumulator and the flags are
    overwritten (here by those of [s']) between the two. *)
Theorem PSW_layout_roundtrip (s s' : CPU8085) :
  0 <= reg_A s < 256 ->
  let psw := getPSW s in
  let low := Z.land psw 0xFF in
  (Z.testbit low 7 = flag_S s /\ Z.testbit low 6 = flag_Z s /\
   Z.testbit low 5 = false /\ Z.testbit low 4 = flag_AC s /\
   Z.testbit low 3 = false /\ Z.testbit low 2 = flag_P s /\
   Z.testbit low 1 = true /\ Z.testbit low 0 = flag_CY s) /\
  Z.shiftr psw 8 = reg_A s /\
  (reg_A (setPSW psw s') = reg_A s /\ flags (setPSW psw s') = flags s /\
   setPSW psw s' = with_flags (flags s) (set_A (reg_A s) s') /\
   setPSW psw s = s) /\
  (let s2 := executeInstruction 0xF1 (executeInstruction 0xF5 s) in
   reg_A s2 = reg_A s /\ flags s2 = flags s) /\
  (let pushed := executeInstruction 0xF5 s in
   let clobbered := with_flags (flags s') (set_A (reg_A s') pushed) in
   let s2 := executeInstruction 0xF1 clobbered in
   reg_A s2 = reg_A s /\ flags s2 = flags s).
Proof.
  intros HA psw low.
  pose proof (pswFlags_of_range s) as Hf.
  assert (Hlow : low = pswFlags_of s).
  { subst low psw. rewrite getPSW_eq. apply low_byte_join; assumption. }
  assert (Hhigh : Z.shiftr psw 8 = reg_A s).
  { subst psw. rewrite getPSW_eq. apply high_byte_join; assumption. }
  assert (Hset : forall t, setPSW psw t = with_flags (flags s) (set_A (reg_A s) t)).
  { intros t. subst psw. apply setPSW_getPSW. exact HA. }
  assert (Hpop : fst (popWord (pushWord psw s)) = psw).
  { apply popWord_pushWord_any. subst psw. apply getPSW_range. exact HA. }
  split; [rewrite Hlow; apply pswFlags_of_bits|].
  split; [exact Hhigh|].
  split.
  { rewrite !Hset. repeat split. destruct s as [[] f m h io]. reflexivity. }
  split.
  - intros s2.
    assert (Hs2 : s2 = setPSW (fst (popWord (pushWord psw s)))
                              (snd (popWord (pushWord psw s)))) by reflexivity.
    rewrite Hpop, Hset in Hs2. rewrite Hs2. split; reflexivity.
  - intros pushed clobbered s2.
    assert (Hs2 : s2 = setPSW (fst (popWord clobbered)) (snd (popWord clobbered)))
      by reflexivity.
    subst clobbered. rewrite popWord_clobbered in Hs2. cbn [fst snd] in Hs2.
    change pushed with (pushWord psw s) in Hs2.
    rewrite Hpop, Hset in Hs2. rewrite Hs2. split; reflexivity.
Qed.

Lemma PSW_layout_roundtrip_witness :
  let psw := getPSW psw_state in
  let low := Z.land psw 0xFF in
  (Z.testbit low 7 = flag_S psw_state /\ Z.testbit low 6 = flag_Z psw_state /\
   Z.testbit low 5 = false /\ Z.testbit low 4 = flag_AC psw_state /\
   Z.testbit low 3 = false /\ Z.testbit low 2 = flag_P psw_state /\
   Z.testbit low 1 = true /\ Z.testbit low 0 = flag_CY psw_state) /\
  Z.shiftr psw 8 = reg_A psw_state /\
  (reg_A (setPSW psw daa_state) = reg_A psw_state /\
   flags (setPSW psw daa_state) = flags psw_state /\
   setPSW psw daa_state
   = with_flags (flags psw_state) (set_A (reg_A psw_state) daa_state) /\
   setPSW psw psw_state = psw_state) /\
  (let s2 := executeInstruction 0xF1 (executeInstruction 0xF5 psw_state) in
   reg_A s2 = reg_A psw_state /\ flags s2 = flags psw_state) /\
  (let pushed := executeInstruction 0xF5 psw_state in
   let clobbered := with_flags (flags daa_state) (set_A (reg_A daa_state) pushed) in
   let s2 := executeInstruction 0xF1 clobbered in
   reg_A s2 = reg_A psw_state /\ flags s2 = flags psw_state).
Proof.
  apply (PSW_layout_roundtrip psw_state daa_state). change (0 <= 0x9A < 256). lia.
Defined.

Example psw_value : getPSW psw_state = 0x9A87.
Proof. reflexivity. Qed.

(** The status word of one state written into another: accumulator 0x9A and
    the flags Sign, Parity and Carry arrive, the DAA opcode in memory
    stays. *)
Example psw_into_other_state :
  let s2 := setPSW (getPSW psw_state) daa_state in
  reg_A daa_state = 0x15 /\ flags daa_state <> flags psw_state /\
  reg_A s2 = 0x9A /\ flags s2 = Flags.mk true false false true true /\
  memory s2 = memory daa_state.
Proof. repeat split. intros Heq. discriminate Heq. Qed.

(** ** C9: decimal adjust keeps a Carry that was set *)

(** C9. On a running processor whose next opcode is DAA (0x27), if Carry is
    set before [step] then it is set after it. *)
Theorem step_DAA_keeps_carry (s : CPU8085) :
  halted s = false ->
  readByte s (reg_PC s) = 0x27 ->
  flag_CY s = true ->
  flag_CY (step s) = true.
Proof.
  intros Hh Hop HCY. fetch Hh Hop.
  destruct s as [r [fS fZ fAC fP fCY] m h io].
  change (fCY = true) in HCY. subst fCY. reflexivity.
Qed.

Lemma step_DAA_keeps_carry_witness : flag_CY (step daa_state) = true.
Proof. apply (step_DAA_keeps_carry daa_state); reflexivity. Defined.

Example daa_scenario :
  reg_A (step daa_state) = 0x75 /\
  flag_CY (snd (add8bit 0x15 0x60 false daa_state)) = false.
Proof. split; reflexivity. Qed.

(** ** C10: compare *)

(** C10. On a running processor whose next opcode is CMP B, CMP M, CMP A or
    CPI, [step] sets the five flags as [sub8bit A operand false] does and
    moves the program counter past the instruction; the accumulator, the
    other registers, the stack pointer, memory and the I/O ports are
    unchanged, and the processor keeps running. It holds in every state,
    reachable or not. *)
Theorem step_CMP_CPI (s : CPU8085) (opcode : Z) :
  halted s = false ->
  readByte s (reg_PC s) = opcode ->
  In opcode CMP_opcodes ->
  let operand := cmp_operand opcode s in
  let s' := step s in
  flags s' = flags (snd (sub8bit (reg_A s) operand false s)) /\
  reg_A s' = reg_A s /\
  (reg_B s' = reg_B s /\ reg_C s' = reg_C s /\ reg_D s' = reg_D s /\
   reg_E s' = reg_E s /\ reg_H s' = reg_H s /\ reg_L s' = reg_L s) /\
  reg_SP s' = reg_SP s /\
  reg_PC s' = Z.land (reg_PC s + cmp_length opcode) 0xFFFF /\
  memory s' = memory s /\ ioPorts s' = ioPorts s /\ halted s' = false.
Proof.
  intros Hh Hop Hin operand s'. subst operand s'.
  each_opcode Hin;
    match goal with
    | Heq : _ = readByte _ _ |- _ => symmetry in Heq; fetch Hh Heq
    end.
  1-3: repeat split; exact Hh.
  split.
  { change (flags (executeInstruction 0xFE ?s1))
      with (flags (snd (sub8bit (reg_A s)
                          (readByte s (Z.land (reg_PC s + 1) 0xFFFF)) false s))).
    rewrite readByte_masked. reflexivity. }
  repeat split; try exact Hh.
  change (reg_PC (executeInstruction 0xFE ?s1))
    with (Z.land (Z.land (reg_PC s + 1) 0xFFFF + 1) 0xFFFF).
  apply advance_twice.
Qed.

Lemma step_CMP_CPI_witness :
  let s' := step cpi_state in
  flags s' = flags (snd (sub8bit (reg_A cpi_state) (cmp_operand 0xFE cpi_state)
                           false cpi_state)) /\
  reg_A s' = reg_A cpi_state /\
  (reg_B s' = reg_B cpi_state /\ reg_C s' = reg_C cpi_state /\
   reg_D s' = reg_D cpi_state /\ reg_E s' = reg_E cpi_state /\
   reg_H s' = reg_H cpi_state /\ reg_L s' = reg_L cpi_state) /\
  reg_SP s' = reg_SP cpi_state /\
  reg_PC s' = Z.land (reg_PC cpi_state + cmp_length 0xFE) 0xFFFF /\
  memory s' = memory cpi_state /\ ioPorts s' = ioPorts cpi_state /\
  halted s' = false.
Proof.
  apply (step_CMP_CPI cpi_state 0xFE); [reflexivity | reflexivity | ].
  simpl. tauto.
Defined.

Example cpi_scenario :
  reg_A (step cpi_state) = 0x10 /\ reg_PC (step cpi_state) = 0x0002 /\
  flags (step cpi_state) = Flags.mk true false false true true.
Proof. repeat split. Qed.

(** * Further properties of the code *)

(** ** More arithmetic *)

Lemma land_byte_mod (v : Z) : Z.land v 0xFF = v mod 256.
Proof. apply word_low_byte. Qed.

Lemma land_word_mod (v : Z) : Z.land v 0xFFFF = v mod 65536.
Proof. change 0xFFFF with (Z.ones 16). rewrite Z.land_ones by lia. reflexivity. Qed.

Lemma land_nibble_mod (v : Z) : Z.land v 0x0F = v mod 16.
Proof. change 0x0F with (Z.ones 4). rewrite Z.land_ones by lia. reflexivity. Qed.

(** Splitting any integer into two bytes and joining them keeps its low
    16 bits. *)
Lemma split_join_any (v : Z) :
  Z.lor (Z.shiftl (Z.land (Z.shiftr v 8) 0xFF) 8) (Z.land v 0xFF) = Z.land v 0xFFFF.
Proof.
  rewrite join_bytes by apply land_byte_range.
  rewrite !land_byte_mod, land_word_mod, Z.shiftr_div_pow2 by lia.
  change (2 ^ 8) with 256. change 65536 with (256 * 256).
  rewrite Z.rem_mul_r by lia. lia.
Qed.

(** Bit 4 of a difference of two nibbles (and a borrow) is set exactly when
    the difference is negative. *)
Lemma nibble_borrow (n : Z) :
  -16 <= n < 16 -> negb (Z.land n 0x10 =? 0) = (n <? 0).
Proof.
  intros Hn.
  assert (Hk : 0 <= n + 16 < Z.of_nat 32) by lia.
  apply (check_below_sound 32
           (fun k => Bool.eqb (negb (Z.land (k - 16) 0x10 =? 0)) (k - 16 <? 0))) in Hk.
  - apply Bool.eqb_prop in Hk. replace (n + 16 - 16) with n in Hk by lia. exact Hk.
  - vm_compute. reflexivity.
Qed.

(** ** The 8-bit subtractor *)

(** X2. For 8-bit [a] and [b], [sub8bit a b false] returns [(a-b) mod 256],
    sets Carry iff [a < b] (a borrow), Auxiliary-Carry iff the low nibble of
    [a] is below the low nibble of [b], Zero iff [a = b], Sign iff bit 7 of
    the result is set, and Parity iff the result has an even number of set
    bits. *)
Theorem sub8bit_spec (a b : Z) (s : CPU8085) :
  0 <= a < 256 -> 0 <= b < 256 ->
  let result := fst (sub8bit a b false s) in
  let s' := snd (sub8bit a b false s) in
  result = (a - b) mod 256 /\
  (flag_CY s' = true <-> a < b) /\
  (flag_AC s' = true <-> Z.land a 0x0F < Z.land b 0x0F) /\
  (flag_Z s' = true <-> a = b) /\
  (flag_S s' = true <-> Z.testbit result 7 = true) /\
  (flag_P s' = true <-> Nat.Even (popcount result)).
Proof.
  intros Ha Hb result s'.
  assert (Hres : result = (a - b) mod 256).
  { subst result. change (fst (sub8bit a b false s))
      with (Z.land (Z.land a 0xFF - Z.land b 0xFF - 0) 0xFF).
    rewrite (land_byte_id a), (land_byte_id b), land_byte_mod by assumption.
    f_equal. lia. }
  assert (Hrange : 0 <= result < 256) by (rewrite Hres; apply Z.mod_pos_bound; lia).
  assert (HS : flag_S s' = negb (Z.land (Z.land result 0xFF) 0x80 =? 0)) by reflexivity.
  assert (HZ : flag_Z s' = (Z.land result 0xFF =? 0)) by reflexivity.
  assert (HP : flag_P s' = (parityLoop 8 0 (Z.land result 0xFF) 0 mod 2 =? 0))
    by reflexivity.
  assert (HCY : flag_CY s' = (Z.land a 0xFF - Z.land b 0xFF - 0 <? 0)) by reflexivity.
  assert (HAC : flag_AC s'
                = negb (Z.land (Z.land a 0x0F - Z.land b 0x0F - 0) 0x10 =? 0))
    by reflexivity.
  rewrite land_byte_id in HS, HZ, HP by assumption.
  rewrite (land_byte_id a), (land_byte_id b) in HCY by assumption.
  pose proof (land_nibble_range a) as Hna.
  pose proof (land_nibble_range b) as Hnb.
  rewrite nibble_borrow in HAC by lia.
  rewrite sign_bit_byte in HS by assumption.
  rewrite parityLoop_popcount in HP by assumption.
  split; [exact Hres|].
  rewrite HCY, HAC, HZ, HS, HP.
  rewrite !Z.ltb_lt, Z.eqb_eq, Nat.even_spec.
  repeat split; intros; try lia; try assumption.
  - rewrite Hres in H.
    destruct (Z.le_gt_cases b a) as [Hle | Hgt].
    + rewrite Z.mod_small in H by lia. lia.
    + replace (a - b) with (a - b + 256 + (-1) * 256) in H by lia.
      rewrite Z.mod_add, Z.mod_small in H by lia. lia.
  - rewrite Hres. subst b. rewrite Z.sub_diag. reflexivity.
Qed.

Lemma sub8bit_spec_witness :
  let result := fst (sub8bit 0x10 0x20 false new_CPU8085) in
  let s' := snd (sub8bit 0x10 0x20 false new_CPU8085) in
  result = (0x10 - 0x20) mod 256 /\
  (flag_CY s' = true <-> 0x10 < 0x20) /\
  (flag_AC s' = true <-> Z.land 0x10 0x0F < Z.land 0x20 0x0F) /\
  (flag_Z s' = true <-> 0x10 = 0x20) /\
  (flag_S s' = true <-> Z.testbit result 7 = true) /\
  (flag_P s' = true <-> Nat.Even (popcount result)).
Proof. apply (sub8bit_spec 0x10 0x20 new_CPU8085); lia. Defined.

(** ** Carry and borrow chains *)


Lemma sub8bit_borrow_arith (a b : Z) (c : bool) (s : CPU8085) :
  0 <= a < 256 -> 0 <= b < 256 ->
  let result := fst (sub8bit a b c s) in
  let s' := snd (sub8bit a b c s) in
  0 <= result < 256 /\ result - 256 * bit (flag_CY s') = a - b - bit c.
Proof.
  intros Ha Hb result s'.
  assert (Hres : result = (a - b - bit c) mod 256).
  { subst result. change (fst (sub8bit a b c s))
      with (Z.land (Z.land a 0xFF - Z.land b 0xFF - bit c) 0xFF).
    rewrite (land_byte_id a), (land_byte_id b) by assumption. apply land_byte_mod. }
  assert (HCY : flag_CY s' = (a - b - bit c <? 0)).
  { change (flag_CY s') with (Z.land a 0xFF - Z.land b 0xFF - bit c <? 0).
    rewrite (land_byte_id a), (land_byte_id b) by assumption. reflexivity. }
  assert (Hc : 0 <= bit c <= 1) by (destruct c; simpl; lia).
  split; [rewrite Hres; apply Z.mod_pos_bound; lia|].
  rewrite Hres, HCY. destruct (a - b - bit c <? 0) eqn:Hcmp.
  - apply Z.ltb_lt in Hcmp. simpl bit.
    replace (a - b - bit c) with (a - b - bit c + 256 + (-1) * 256) at 1 by lia.
    rewrite Z.mod_add, Z.mod_small by lia. lia.
  - apply Z.ltb_ge in Hcmp. simpl bit. rewrite Z.mod_small by lia. lia.
Qed.



(** X4. The same for subtraction with borrow (the SUB / SBB idiom). *)
Theorem sub8bit_chain (xh xl yh yl : Z) (s : CPU8085) :
  0 <= xh < 256 -> 0 <= xl < 256 -> 0 <= yh < 256 -> 0 <= yl < 256 ->
  let low := sub8bit xl yl false s in
  let high := sub8bit xh yh (flag_CY (snd low)) (snd low) in
  (fst high * 256 + fst low) - 65536 * bit (flag_CY (snd high))
  = (xh * 256 + xl) - (yh * 256 + yl).
Proof.
  intros Hxh Hxl Hyh Hyl low high.
  destruct (sub8bit_borrow_arith xl yl false s Hxl Hyl) as [_ Hlow].
  destruct (sub8bit_borrow_arith xh yh (flag_CY (snd low)) (snd low) Hxh Hyh)
    as [_ Hhigh].
  subst low high. cbv zeta in Hlow, Hhigh. change (bit false) with 0 in Hlow. lia.
Qed.

Lemma sub8bit_chain_witness :
  let low := sub8bit 0x00 0x01 false new_CPU8085 in
  let high := sub8bit 0x10 0x0F (flag_CY (snd low)) (snd low) in
  (fst high * 256 + fst low) - 65536 * bit (flag_CY (snd high))
  = (0x10 * 256 + 0x00) - (0x0F * 256 + 0x01).
Proof. apply (sub8bit_chain 0x10 0x00 0x0F 0x01 new_CPU8085); lia. Defined.

(** ** Register pairs *)

Lemma registers_eta (s : CPU8085) :
  set_A (reg_A s) s = s /\ set_B (reg_B s) s = s /\ set_C (reg_C s) s = s /\
  set_D (reg_D s) s = s /\ set_E (reg_E s) s = s /\ set_H (reg_H s) s = s /\
  set_L (reg_L s) s = s /\ set_SP (reg_SP s) s = s /\ set_PC (reg_PC s) s = s.
Proof. destruct s as [[] ? ? ? ?]. repeat split. Qed.

Lemma split_pair (high low : Z) :
  0 <= high < 256 -> 0 <= low < 256 ->
  Z.land (Z.shiftr (Z.lor (Z.shiftl high 8) low) 8) 0xFF = high /\
  Z.land (Z.lor (Z.shiftl high 8) low) 0xFF = low.
Proof.
  intros Hh Hl. rewrite high_byte_join, low_byte_join by assumption.
  split; [apply land_byte_id; exact Hh | reflexivity].
Qed.

Lemma pair_get_set (s : CPU8085) (value : Z) :
  getBC (setBC value s) = Z.land value 0xFFFF /\
  getDE (setDE value s) = Z.land value 0xFFFF /\
  getHL (setHL value s) = Z.land value 0xFFFF.
Proof. repeat split; apply split_join_any. Qed.

Lemma pair_set_get (s : CPU8085) :
  wf s ->
  setBC (getBC s) s = s /\ setDE (getDE s) s = s /\ setHL (getHL s) s = s.
Proof.
  intros Hwf.
  destruct (split_pair (reg_B s) (reg_C s)) as [HB HC];
    [apply byte_reg_B; exact Hwf | apply byte_reg_C; exact Hwf |].
  destruct (split_pair (reg_D s) (reg_E s)) as [HD HE];
    [apply byte_reg_D; exact Hwf | apply byte_reg_E; exact Hwf |].
  destruct (split_pair (reg_H s) (reg_L s)) as [HH HL];
    [apply byte_reg_H; exact Hwf | apply byte_reg_L; exact Hwf |].
  unfold setBC, setDE, setHL, getBC, getDE, getHL.
  rewrite HB, HC, HD, HE, HH, HL.
  destruct s as [[] ? ? ? ?]. repeat split.
Qed.

(** X5. Reading a register pair after writing it gives the low 16 bits of
    the value written, and writing back the value just read changes nothing,
    for BC, DE and HL. *)
Theorem register_pairs_roundtrip (s : CPU8085) (value : Z) :
  wf s ->
  (getBC (setBC value s) = Z.land value 0xFFFF /\
   getDE (setDE value s) = Z.land value 0xFFFF /\
   getHL (setHL value s) = Z.land value 0xFFFF) /\
  (setBC (getBC s) s = s /\ setDE (getDE s) s = s /\ setHL (getHL s) s = s).
Proof.
  intros Hwf. split; [apply pair_get_set | apply pair_set_get; exact Hwf].
Qed.

Lemma register_pairs_roundtrip_witness :
  (getBC (setBC 0x12345 new_CPU8085) = Z.land 0x12345 0xFFFF /\
   getDE (setDE 0x12345 new_CPU8085) = Z.land 0x12345 0xFFFF /\
   getHL (setHL 0x12345 new_CPU8085) = Z.land 0x12345 0xFFFF) /\
  (setBC (getBC new_CPU8085) new_CPU8085 = new_CPU8085 /\
   setDE (getDE new_CPU8085) new_CPU8085 = new_CPU8085 /\
   setHL (getHL new_CPU8085) new_CPU8085 = new_CPU8085).
Proof. apply (register_pairs_roundtrip new_CPU8085 0x12345). apply wf_new_CPU8085. Defined.

(** ** Bytes and words in memory *)

(** X6. After [writeByte address value], reading any address gives the low
    8 bits of the value when the two addresses agree modulo 65536 and the
    old content otherwise. *)
Theorem readByte_writeByte (s : CPU8085) (address address' value : Z) :
  readByte (writeByte address value s) address'
  = if Z.land address 0xFFFF =? Z.land address' 0xFFFF
    then Z.land value 0xFF
    else readByte s address'.
Proof.
  destruct (Z.land address 0xFFFF =? Z.land address' 0xFFFF) eqn:Heq.
  - apply Z.eqb_eq in Heq. apply readByte_writeByte_same. exact Heq.
  - apply Z.eqb_neq in Heq. apply readByte_writeByte_other. exact Heq.
Qed.

Lemma next_address_differs (address : Z) :
  Z.land (address + 1) 0xFFFF <> Z.land address 0xFFFF.
Proof.
  rewrite !land_word_mod. intros Heq.
  pose proof (Z.div_mod address 65536). pose proof (Z.div_mod (address + 1) 65536).
  pose proof (Z.mod_pos_bound address 65536). pose proof (Z.mod_pos_bound (address + 1) 65536).
  lia.
Qed.

(** X7. [readWord] after [writeWord] at the same address gives the low 16
    bits of the value, low byte first, at every address: at 0xFFFF the high
    byte wraps to address 0 for both. *)
Theorem readWord_writeWord (s : CPU8085) (address value : Z) :
  readWord (writeWord address value s) address = Z.land value 0xFFFF /\
  readByte (writeWord address value s) address = Z.land value 0xFF /\
  readByte (writeWord address value s) (address + 1) = Z.land (Z.shiftr value 8) 0xFF.
Proof.
  assert (Hlow : readByte (writeWord address value s) address = Z.land value 0xFF).
  { unfold writeWord. rewrite readByte_writeByte_other by apply next_address_differs.
    rewrite readByte_writeByte_same by reflexivity. apply land_byte_idem. }
  assert (Hhigh : readByte (writeWord address value s) (address + 1)
                  = Z.land (Z.shiftr value 8) 0xFF).
  { unfold writeWord. rewrite readByte_writeByte_same by reflexivity.
    apply land_byte_idem. }
  split; [|split; assumption].
  unfold readWord. rewrite Hlow, Hhigh. apply split_join_any.
Qed.

(** ** DAD *)

(** X8. [dad] adds its argument to HL modulo 65536, sets Carry exactly
    when the sum does not fit in 16 bits, and leaves Sign, Zero,
    Auxiliary-Carry, Parity, the other registers and memory alone. *)
Theorem dad_spec (s : CPU8085) (val : Z) :
  let s' := dad val s in
  getHL s' = (getHL s + val) mod 65536 /\
  (flag_CY s' = true <-> 65536 <= getHL s + val) /\
  same_SZAP (flags s') (flags s) /\
  (reg_A s' = reg_A s /\ getBC s' = getBC s /\ getDE s' = getDE s /\
   reg_SP s' = reg_SP s /\ reg_PC s' = reg_PC s) /\
  memory s' = memory s.
Proof.
  intros s'. subst s'.
  split.
  { change (getHL (dad val s)) with (getHL (setHL (Z.land (getHL s + val) 0xFFFF) s)).
    destruct (pair_get_set s (Z.land (getHL s + val) 0xFFFF)) as (_ & _ & Hget).
    rewrite Hget, land_word_idem. apply land_word_mod. }
  split.
  { change (flag_CY (dad val s)) with (0xFFFF <? getHL s + val).
    rewrite Z.ltb_lt. lia. }
  repeat split.
Qed.

Example dad_wraps :
  let s' := dad 0x0002 (setHL 0xFFFF new_CPU8085) in
  getHL s' = 0x0001 /\ flag_CY s' = true /\ flag_Z s' = true.
Proof. repeat split. Qed.

(** ** 16-bit increment and decrement *)

Lemma inc_dec_word (v : Z) :
  Z.land (Z.land (v + 1) 0xFFFF - 1) 0xFFFF = Z.land v 0xFFFF /\
  Z.land (Z.land (v - 1) 0xFFFF + 1) 0xFFFF = Z.land v 0xFFFF.
Proof.
  rewrite !land_word_mod.
  rewrite Zminus_mod_idemp_l, Zplus_mod_idemp_l.
  split; f_equal; lia.
Qed.

Lemma inc_dec_word_id (v : Z) :
  0 <= v < 65536 ->
  Z.land (Z.land (v + 1) 0xFFFF - 1) 0xFFFF = v /\
  Z.land (Z.land (v - 1) 0xFFFF + 1) 0xFFFF = v.
Proof.
  intros Hv. destruct (inc_dec_word v) as [H1 H2]. rewrite H1, H2.
  split; apply land_word_id; exact Hv.
Qed.

(** X9. INX and DCX of the same pair (B, D, H or SP) undo each other in
    either order, across the wrap between 0xFFFF and 0 as well, and give
    back the whole state: no flag is touched. *)
Theorem INX_DCX_inverse (s : CPU8085) :
  wf s ->
  executeInstruction 0x0B (executeInstruction 0x03 s) = s /\
  executeInstruction 0x03 (executeInstruction 0x0B s) = s /\
  executeInstruction 0x1B (executeInstruction 0x13 s) = s /\
  executeInstruction 0x13 (executeInstruction 0x1B s) = s /\
  executeInstruction 0x2B (executeInstruction 0x23 s) = s /\
  executeInstruction 0x23 (executeInstruction 0x2B s) = s /\
  executeInstruction 0x3B (executeInstruction 0x33 s) = s /\
  executeInstruction 0x33 (executeInstruction 0x3B s) = s.
Proof.
  intros Hwf.
  destruct (pair_set_get s Hwf) as (HBC & HDE & HHL).
  destruct (inc_dec_word_id (getBC s) (word_getBC s Hwf)) as [HB1 HB2].
  destruct (inc_dec_word_id (getDE s) (word_getDE s Hwf)) as [HD1 HD2].
  destruct (inc_dec_word_id (getHL s) (word_getHL s Hwf)) as [HH1 HH2].
  destruct (inc_dec_word_id (reg_SP s) (word_reg_SP s Hwf)) as [HS1 HS2].
  destruct (registers_eta s) as (_ & _ & _ & _ & _ & _ & _ & HSP & _).
  assert (Hget : forall w,
            getBC (setBC (Z.land w 0xFFFF) s) = Z.land w 0xFFFF /\
            getDE (setDE (Z.land w 0xFFFF) s) = Z.land w 0xFFFF /\
            getHL (setHL (Z.land w 0xFFFF) s) = Z.land w 0xFFFF).
  { intros w. destruct (pair_get_set s (Z.land w 0xFFFF)) as (H1 & H2 & H3).
    rewrite land_word_idem in H1, H2, H3. auto. }
  repeat split.
  - change (setBC (Z.land (getBC (setBC (Z.land (getBC s + 1) 0xFFFF) s) - 1) 0xFFFF)
                  (setBC (Z.land (getBC s + 1) 0xFFFF) s) = s).
    destruct (Hget (getBC s + 1)) as (-> & _ & _). rewrite HB1. exact HBC.
  - change (setBC (Z.land (getBC (setBC (Z.land (getBC s - 1) 0xFFFF) s) + 1) 0xFFFF)
                  (setBC (Z.land (getBC s - 1) 0xFFFF) s) = s).
    destruct (Hget (getBC s - 1)) as (-> & _ & _). rewrite HB2. exact HBC.
  - change (setDE (Z.land (getDE (setDE (Z.land (getDE s + 1) 0xFFFF) s) - 1) 0xFFFF)
                  (setDE (Z.land (getDE s + 1) 0xFFFF) s) = s).
    destruct (Hget (getDE s + 1)) as (_ & -> & _). rewrite HD1. exact HDE.
  - change (setDE (Z.land (getDE (setDE (Z.land (getDE s - 1) 0xFFFF) s) + 1) 0xFFFF)
                  (setDE (Z.land (getDE s - 1) 0xFFFF) s) = s).
    destruct (Hget (getDE s - 1)) as (_ & -> & _). rewrite HD2. exact HDE.
  - change (setHL (Z.land (getHL (setHL (Z.land (getHL s + 1) 0xFFFF) s) - 1) 0xFFFF)
                  (setHL (Z.land (getHL s + 1) 0xFFFF) s) = s).
    destruct (Hget (getHL s + 1)) as (_ & _ & ->). rewrite HH1. exact HHL.
  - change (setHL (Z.land (getHL (setHL (Z.land (getHL s - 1) 0xFFFF) s) + 1) 0xFFFF)
                  (setHL (Z.land (getHL s - 1) 0xFFFF) s) = s).
    destruct (Hget (getHL s - 1)) as (_ & _ & ->). rewrite HH2. exact HHL.
  - change (set_SP (Z.land (Z.land (reg_SP s + 1) 0xFFFF - 1) 0xFFFF) s = s).
    rewrite HS1. exact HSP.
  - change (set_SP (Z.land (Z.land (reg_SP s - 1) 0xFFFF + 1) 0xFFFF) s = s).
    rewrite HS2. exact HSP.
Qed.

Lemma INX_DCX_inverse_witness :
  let s := set_SP 0x0000 (setBC 0xFFFF new_CPU8085) in
  executeInstruction 0x0B (executeInstruction 0x03 s) = s /\
  executeInstruction 0x03 (executeInstruction 0x0B s) = s /\
  executeInstruction 0x1B (executeInstruction 0x13 s) = s /\
  executeInstruction 0x13 (executeInstruction 0x1B s) = s /\
  executeInstruction 0x2B (executeInstruction 0x23 s) = s /\
  executeInstruction 0x23 (executeInstruction 0x2B s) = s /\
  executeInstruction 0x3B (executeInstruction 0x33 s) = s /\
  executeInstruction 0x33 (executeInstruction 0x3B s) = s.
Proof.
  apply (INX_DCX_inverse (set_SP 0x0000 (setBC 0xFFFF new_CPU8085))).
  apply wf_set_SP; [unfold word; lia|]. apply wf_setBC, wf_new_CPU8085.
Defined.

Example INX_wraps :
  getBC (executeInstruction 0x03 (setBC 0xFFFF new_CPU8085)) = 0x0000 /\
  flags (executeInstruction 0x03 (setBC 0xFFFF new_CPU8085)) = flags new_CPU8085.
Proof. split; reflexivity. Qed.

(** ** XCHG *)

(** X10. XCHG exchanges HL and DE, and two XCHG in a row give back the
    state. *)
Theorem XCHG_swaps (s : CPU8085) :
  let s' := executeInstruction 0xEB s in
  getHL s' = getDE s /\ getDE s' = getHL s /\
  executeInstruction 0xEB s' = s.
Proof. destruct s as [[] ? ? ? ?]. repeat split. Qed.

(** ** CMA *)

Lemma complement_byte (a : Z) :
  0 <= a < 256 -> Z.land (Z.lnot a) 0xFF = 255 - a.
Proof.
  intros Ha. rewrite Z.lnot_eq_pred_opp, land_byte_mod.
  replace (- a - 1) with (255 - a + (-1) * 256) by lia.
  rewrite Z.mod_add by lia. apply Z.mod_small. lia.
Qed.

(** X11. CMA on an 8-bit accumulator gives [255 - A], changes no flag,
    and two CMA in a row give back the state. *)
Theorem CMA_complements (s : CPU8085) :
  0 <= reg_A s < 256 ->
  let s' := executeInstruction 0x2F s in
  reg_A s' = 255 - reg_A s /\
  flags s' = flags s /\
  executeInstruction 0x2F s' = s.
Proof.
  intros HA s'. subst s'.
  assert (H1 : reg_A (executeInstruction 0x2F s) = 255 - reg_A s).
  { change (reg_A (executeInstruction 0x2F s)) with (Z.land (Z.lnot (reg_A s)) 0xFF).
    apply complement_byte. exact HA. }
  split; [exact H1|]. split; [reflexivity|].
  change (executeInstruction 0x2F (executeInstruction 0x2F s))
    with (set_A (Z.land (Z.lnot (reg_A (executeInstruction 0x2F s))) 0xFF) s).
  rewrite H1, complement_byte by lia.
  replace (255 - (255 - reg_A s)) with (reg_A s) by lia.
  apply registers_eta.
Qed.

Lemma CMA_complements_witness :
  let s' := executeInstruction 0x2F psw_state in
  reg_A s' = 255 - reg_A psw_state /\
  flags s' = flags psw_state /\
  executeInstruction 0x2F s' = psw_state.
Proof. apply (CMA_complements psw_state). change (0 <= 0x9A < 256). lia. Defined.

(** ** Rotates *)

Lemma executeInstruction_rotates (s : CPU8085) :
  executeInstruction 0x07 s
  = set_CY (snd (RLC_of (reg_A s))) (set_A (fst (RLC_of (reg_A s))) s) /\
  executeInstruction 0x0F s
  = set_CY (snd (RRC_of (reg_A s))) (set_A (fst (RRC_of (reg_A s))) s) /\
  executeInstruction 0x17 s
  = set_A (fst (RAL_of (reg_A s) (flag_CY s)))
          (set_CY (snd (RAL_of (reg_A s) (flag_CY s))) s) /\
  executeInstruction 0x1F s
  = set_A (fst (RAR_of (reg_A s) (flag_CY s)))
          (set_CY (snd (RAR_of (reg_A s) (flag_CY s))) s).
Proof. repeat split. Qed.

(** Equality test on an accumulator and Carry. *)
Lemma acc_carry_eqb (p q : Z * bool) :
  (fst p =? fst q) && Bool.eqb (snd p) (snd q) = true -> p = q.
Proof.
  destruct p as [a c], q as [a' c']. cbn [fst snd]. intros H.
  apply andb_true_iff in H. destruct H as [Ha Hc].
  apply Z.eqb_eq in Ha. apply Bool.eqb_prop in Hc. subst. reflexivity.
Qed.

Lemma rotate_inverse (a : Z) (cy : bool) :
  0 <= a < 256 ->
  RAR_of (fst (RAL_of a cy)) (snd (RAL_of a cy)) = (a, cy) /\
  RAL_of (fst (RAR_of a cy)) (snd (RAR_of a cy)) = (a, cy) /\
  fst (RRC_of (fst (RLC_of a))) = a /\
  fst (RLC_of (fst (RRC_of a))) = a /\
  (snd (RLC_of a) = Z.testbit a 7 /\ snd (RRC_of a) = Z.testbit a 0) /\
  (snd (RAL_of a cy) = Z.testbit a 7 /\ snd (RAR_of a cy) = Z.testbit a 0).
Proof.
  intros Ha.
  split.
  { apply acc_carry_eqb.
    apply (check_below_sound 256
             (fun a => (fst (RAR_of (fst (RAL_of a cy)) (snd (RAL_of a cy))) =? fst (a, cy))
                       && Bool.eqb (snd (RAR_of (fst (RAL_of a cy)) (snd (RAL_of a cy))))
                                   (snd (a, cy)))); [|exact Ha].
    destruct cy; vm_compute; reflexivity. }
  split.
  { apply acc_carry_eqb.
    apply (check_below_sound 256
             (fun a => (fst (RAL_of (fst (RAR_of a cy)) (snd (RAR_of a cy))) =? fst (a, cy))
                       && Bool.eqb (snd (RAL_of (fst (RAR_of a cy)) (snd (RAR_of a cy))))
                                   (snd (a, cy)))); [|exact Ha].
    destruct cy; vm_compute; reflexivity. }
  split.
  { apply Z.eqb_eq.
    apply (check_below_sound 256 (fun a => fst (RRC_of (fst (RLC_of a))) =? a));
      [vm_compute; reflexivity | exact Ha]. }
  split.
  { apply Z.eqb_eq.
    apply (check_below_sound 256 (fun a => fst (RLC_of (fst (RRC_of a))) =? a));
      [vm_compute; reflexivity | exact Ha]. }
  split; split; apply Bool.eqb_prop.
  - apply (check_below_sound 256 (fun a => Bool.eqb (snd (RLC_of a)) (Z.testbit a 7)));
      [vm_compute; reflexivity | exact Ha].
  - apply (check_below_sound 256 (fun a => Bool.eqb (snd (RRC_of a)) (Z.testbit a 0)));
      [vm_compute; reflexivity | exact Ha].
  - apply (check_below_sound 256 (fun a => Bool.eqb (snd (RAL_of a cy)) (Z.testbit a 7)));
      [destruct cy; vm_compute; reflexivity | exact Ha].
  - apply (check_below_sound 256 (fun a => Bool.eqb (snd (RAR_of a cy)) (Z.testbit a 0)));
      [destruct cy; vm_compute; reflexivity | exact Ha].
Qed.

(** X12. On an 8-bit accumulator, RAL and RAR undo each other on the whole
    state (the nine bits of accumulator and Carry rotate), RLC and RRC undo
    each other on the accumulator, and each rotate leaves in Carry the bit
    that left the accumulator: bit 7 for RLC and RAL, bit 0 for RRC and
    RAR. *)
Theorem rotates_inverse (s : CPU8085) :
  0 <= reg_A s < 256 ->
  executeInstruction 0x1F (executeInstruction 0x17 s) = s /\
  executeInstruction 0x17 (executeInstruction 0x1F s) = s /\
  reg_A (executeInstruction 0x0F (executeInstruction 0x07 s)) = reg_A s /\
  reg_A (executeInstruction 0x07 (executeInstruction 0x0F s)) = reg_A s /\
  flag_CY (executeInstruction 0x07 s) = Z.testbit (reg_A s) 7 /\
  flag_CY (executeInstruction 0x17 s) = Z.testbit (reg_A s) 7 /\
  flag_CY (executeInstruction 0x0F s) = Z.testbit (reg_A s) 0 /\
  flag_CY (executeInstruction 0x1F s) = Z.testbit (reg_A s) 0.
Proof.
  intros HA.
  destruct (rotate_inverse (reg_A s) (flag_CY s) HA)
    as (H1 & H2 & H3 & H4 & (H5 & H6) & (H7 & H8)).
  assert (Heta : set_A (reg_A s) (set_CY (flag_CY s) s) = s)
    by (destruct s as [[] [] ? ? ?]; reflexivity).
  repeat split.
  - change (executeInstruction 0x1F (executeInstruction 0x17 s))
      with (set_A (fst (RAR_of (fst (RAL_of (reg_A s) (flag_CY s)))
                               (snd (RAL_of (reg_A s) (flag_CY s)))))
             (set_CY (snd (RAR_of (fst (RAL_of (reg_A s) (flag_CY s)))
                                  (snd (RAL_of (reg_A s) (flag_CY s))))) s)).
    rewrite H1. exact Heta.
  - change (executeInstruction 0x17 (executeInstruction 0x1F s))
      with (set_A (fst (RAL_of (fst (RAR_of (reg_A s) (flag_CY s)))
                               (snd (RAR_of (reg_A s) (flag_CY s)))))
             (set_CY (snd (RAL_of (fst (RAR_of (reg_A s) (flag_CY s)))
                                  (snd (RAR_of (reg_A s) (flag_CY s))))) s)).
    rewrite H2. exact Heta.
  - exact H3.
  - exact H4.
  - exact H5.
  - exact H7.
  - exact H6.
  - exact H8.
Qed.

Lemma rotates_inverse_witness :
  executeInstruction 0x1F (executeInstruction 0x17 psw_state) = psw_state /\
  executeInstruction 0x17 (executeInstruction 0x1F psw_state) = psw_state /\
  reg_A (executeInstruction 0x0F (executeInstruction 0x07 psw_state)) = reg_A psw_state /\
  reg_A (executeInstruction 0x07 (executeInstruction 0x0F psw_state)) = reg_A psw_state /\
  flag_CY (executeInstruction 0x07 psw_state) = Z.testbit (reg_A psw_state) 7 /\
  flag_CY (executeInstruction 0x17 psw_state) = Z.testbit (reg_A psw_state) 7 /\
  flag_CY (executeInstruction 0x0F psw_state) = Z.testbit (reg_A psw_state) 0 /\
  flag_CY (executeInstruction 0x1F psw_state) = Z.testbit (reg_A psw_state) 0.
Proof. apply (rotates_inverse psw_state). change (0 <= 0x9A < 256). lia. Defined.

(** ** INR then DCR *)

Lemma inc_dec_byte (x : Z) (s1 s2 : CPU8085) :
  0 <= x < 256 ->
  fst (sub8bit (fst (add8bit x 1 false s1)) 1 false s2) = x /\
  fst (add8bit (fst (sub8bit x 1 false s1)) 1 false s2) = x.
Proof.
  intros Hx. split; apply Z.eqb_eq.
  - apply (check_below_sound 256
             (fun x => fst (sub8bit (fst (add8bit x 1 false new_CPU8085)) 1 false
                              new_CPU8085) =? x));
      [vm_compute; reflexivity | exact Hx].
  - apply (check_below_sound 256
             (fun x => fst (add8bit (fst (sub8bit x 1 false new_CPU8085)) 1 false
                              new_CPU8085) =? x));
      [vm_compute; reflexivity | exact Hx].
Qed.

Ltac inc_dec_case setr getr s Hwf Hbyte :=
  let H1 := fresh in let H2 := fresh in
  destruct (inc_dec_byte (getr s) s s (Hbyte s Hwf)) as [H1 H2];
  split; (split; [| repeat split]);
  [ change (registers (setr (fst (sub8bit (fst (add8bit (getr s) 1 false s)) 1 false s)) s)
            = registers s); rewrite H1
  | change (registers (setr (fst (add8bit (fst (sub8bit (getr s) 1 false s)) 1 false s)) s)
            = registers s); rewrite H2 ];
  f_equal; apply registers_eta.

(** X13. For each of the registers B, C, D, E, H, L and A, INR followed by
    DCR, and DCR followed by INR, give back all registers and the Carry
    flag, and leave memory, ports and [halted] alone. *)
Theorem INR_DCR_inverse (s : CPU8085) :
  wf s ->
  Forall (fun p => restores_registers_and_carry (fst p) (snd p) s /\
                   restores_registers_and_carry (snd p) (fst p) s)
         INR_DCR_register_pairs.
Proof.
  intros Hwf. unfold INR_DCR_register_pairs, restores_registers_and_carry.
  apply List.Forall_forall. intros p Hin. simpl in Hin.
  repeat (destruct Hin as [Hin | Hin]; [subst p | ]); [ .. | contradiction ];
    cbn [fst snd].
  - inc_dec_case set_B reg_B s Hwf byte_reg_B.
  - inc_dec_case set_C reg_C s Hwf byte_reg_C.
  - inc_dec_case set_D reg_D s Hwf byte_reg_D.
  - inc_dec_case set_E reg_E s Hwf byte_reg_E.
  - inc_dec_case set_H reg_H s Hwf byte_reg_H.
  - inc_dec_case set_L reg_L s Hwf byte_reg_L.
  - inc_dec_case set_A reg_A s Hwf byte_reg_A.
Qed.

Lemma INR_DCR_inverse_witness :
  Forall (fun p => restores_registers_and_carry (fst p) (snd p) inr_a_state /\
                   restores_registers_and_carry (snd p) (fst p) inr_a_state)
         INR_DCR_register_pairs.
Proof.
  apply (INR_DCR_inverse inr_a_state).
  unfold inr_a_state. apply wf_set_CY, wf_set_A, wf_writeByte, wf_new_CPU8085.
  unfold byte. lia.
Defined.

(** ** Logic operations *)

Lemma updateZSPFlags_byte (v : Z) (s : CPU8085) :
  0 <= v < 256 ->
  let s' := updateZSPFlags v s in
  (flag_Z s' = true <-> v = 0) /\
  (flag_S s' = true <-> Z.testbit v 7 = true) /\
  (flag_P s' = true <-> Nat.Even (popcount v)).
Proof.
  intros Hv s'. subst s'.
  rewrite updateZSPFlags_Z, updateZSPFlags_S, updateZSPFlags_P.
  rewrite land_byte_id by exact Hv.
  rewrite sign_bit_byte, parityLoop_popcount by exact Hv.
  rewrite Z.eqb_eq, Nat.even_spec. tauto.
Qed.

(** X14. On a running processor in a well-formed state whose next opcode is
    one of the implemented ANA, XRA, ORA, ANI, XRI, ORI, [step] puts the
    bitwise and, xor or or of the accumulator and the operand in the
    accumulator, clears Carry and Auxiliary-Carry, and sets Zero, Sign and
    Parity from the new accumulator. *)
Theorem step_logic (s : CPU8085) (opcode : Z) :
  wf s ->
  halted s = false ->
  readByte s (reg_PC s) = opcode ->
  In opcode logic_opcodes ->
  let s' := step s in
  reg_A s' = logic_result opcode s /\
  flag_CY s' = false /\ flag_AC s' = false /\
  (flag_Z s' = true <-> reg_A s' = 0) /\
  (flag_S s' = true <-> Z.testbit (reg_A s') 7 = true) /\
  (flag_P s' = true <-> Nat.Even (popcount (reg_A s'))).
Proof.
  intros Hwf Hh Hop Hin s'. subst s'.
  assert (Hbyte : 0 <= logic_result opcode s < 256).
  { pose proof (byte_reg_A s Hwf). pose proof (byte_reg_B s Hwf).
    pose proof (byte_reg_C s Hwf). pose proof (byte_readByte s (getHL s) Hwf).
    pose proof (byte_readByte s (Z.land (reg_PC s + 1) 0xFFFF) Hwf).
    clear Hop. each_opcode Hin; cbv beta iota zeta delta [logic_result];
      first [apply byte_land | apply byte_lxor | apply byte_lor]; assumption. }
  assert (HA : reg_A (step s) = logic_result opcode s).
  { each_opcode Hin;
      match goal with
      | Heq : _ = readByte _ _ |- _ => symmetry in Heq; fetch Hh Heq
      end; reflexivity. }
  assert (HF : flags (step s)
               = flags (set_AC false (set_CY false
                          (updateZSPFlags (logic_result opcode s) s)))).
  { each_opcode Hin;
      match goal with
      | Heq : _ = readByte _ _ |- _ => symmetry in Heq; fetch Hh Heq
      end; reflexivity. }
  split; [exact HA|].
  destruct (updateZSPFlags_byte (logic_result opcode s) s Hbyte) as (HZ & HS & HP).
  unfold flag_CY, flag_AC, flag_Z, flag_S, flag_P. rewrite HF, HA.
  split; [reflexivity|]. split; [reflexivity|].
  split; [exact HZ|]. split; [exact HS | exact HP].
Qed.

(** XRA A at address 0 with accumulator 0x9A. *)
Lemma step_logic_witness :
  let s := set_A 0x9A (opcode_state 0xAF) in
  let s' := step s in
  reg_A s' = logic_result 0xAF s /\
  flag_CY s' = false /\ flag_AC s' = false /\
  (flag_Z s' = true <-> reg_A s' = 0) /\
  (flag_S s' = true <-> Z.testbit (reg_A s') 7 = true) /\
  (flag_P s' = true <-> Nat.Even (popcount (reg_A s'))).
Proof.
  apply (step_logic (set_A 0x9A (opcode_state 0xAF)) 0xAF);
    [ | reflexivity | reflexivity | simpl; tauto ].
  apply wf_set_A; [unfold byte; lia|]. apply wf_writeByte, wf_new_CPU8085.
Defined.

(** ** Stepping a running processor *)

Lemma step_running (s : CPU8085) :
  halted s = false ->
  step s = executeInstruction (readByte s (reg_PC s))
             (set_PC (Z.land (reg_PC s + 1) 0xFFFF) s).
Proof. intros Hh. unfold step. rewrite Hh. reflexivity. Qed.

Lemma advance_by (pc j k : Z) :
  Z.land (Z.land (pc + j) 0xFFFF + k) 0xFFFF = Z.land (pc + j + k) 0xFFFF.
Proof. rewrite !land_word_mod. apply Zplus_mod_idemp_l. Qed.

(** ** Conditional jumps *)

(** X15. On a running processor whose next opcode is one of the eight
    conditional jumps, [step] changes the program counter only: to the
    operand word when the flag condition holds, to the address after the
    three-byte instruction otherwise. *)
Theorem step_Jcond (s : CPU8085) (opcode : Z) :
  halted s = false ->
  readByte s (reg_PC s) = opcode ->
  In opcode Jcond_opcodes ->
  step s = set_PC (if jump_condition opcode s
                   then readWord s (Z.land (reg_PC s + 1) 0xFFFF)
                   else Z.land (reg_PC s + 3) 0xFFFF) s.
Proof.
  intros Hh Hop Hin.
  assert (Hskip : set_PC (Z.land (Z.land (reg_PC s + 1) 0xFFFF + 2) 0xFFFF) s
                  = set_PC (Z.land (reg_PC s + 3) 0xFFFF) s).
  { rewrite advance_by. do 2 f_equal. lia. }
  each_opcode Hin;
    match goal with
    | Heq : _ = readByte _ _ |- _ => symmetry in Heq; fetch Hh Heq
    end;
    unfold jump_condition, executeInstruction;
    match goal with
    | |- context [flag_Z s] => change (flag_Z (set_PC ?x s)) with (flag_Z s);
                               destruct (flag_Z s)
    | |- context [flag_CY s] => change (flag_CY (set_PC ?x s)) with (flag_CY s);
                                destruct (flag_CY s)
    | |- context [flag_P s] => change (flag_P (set_PC ?x s)) with (flag_P s);
                               destruct (flag_P s)
    | |- context [flag_S s] => change (flag_S (set_PC ?x s)) with (flag_S s);
                               destruct (flag_S s)
    end; first [reflexivity | exact Hskip].
Qed.

Lemma step_Jcond_witness :
  step (branch_state 0xEA)
  = set_PC (if jump_condition 0xEA (branch_state 0xEA)
            then readWord (branch_state 0xEA)
                          (Z.land (reg_PC (branch_state 0xEA) + 1) 0xFFFF)
            else Z.land (reg_PC (branch_state 0xEA) + 3) 0xFFFF) (branch_state 0xEA).
Proof.
  apply (step_Jcond (branch_state 0xEA) 0xEA); [reflexivity | reflexivity | ].
  simpl. tauto.
Defined.

Example JPE_taken_JPO_not : 
  reg_PC (step (branch_state 0xEA)) = 0x1234 /\
  reg_PC (step (branch_state 0xE2)) = 0x0003.
Proof. split; reflexivity. Qed.

(** ** RST *)

(** X16. On a running processor whose next opcode is RST n (0xC7 + 8n),
    [step] pushes the address after the opcode, so that a pop gives it
    back, sets the program counter to [8n], and keeps running. *)
Theorem step_RST (s : CPU8085) (n : Z) :
  halted s = false ->
  0 <= n < 8 ->
  readByte s (reg_PC s) = 0xC7 + 8 * n ->
  let after := Z.land (reg_PC s + 1) 0xFFFF in
  step s = set_PC (8 * n) (pushWord after (set_PC after s)) /\
  reg_PC (step s) = 8 * n /\
  fst (popWord (step s)) = after /\
  halted (step s) = false.
Proof.
  intros Hh Hn Hop after.
  assert (Hstep : step s = set_PC (8 * n) (pushWord after (set_PC after s))).
  { assert (Hcases : n = 0 \/ n = 1 \/ n = 2 \/ n = 3 \/ n = 4 \/ n = 5 \/ n = 6 \/ n = 7)
      by lia.
    repeat (destruct Hcases as [Hcases | Hcases]; [subst n | ]); [ .. | subst n ];
      cbn in Hop; fetch Hh Hop; reflexivity. }
  split; [exact Hstep|]. rewrite Hstep.
  split; [reflexivity|]. split; [|exact Hh].
  change (fst (popWord (set_PC (8 * n) (pushWord after (set_PC after s)))))
    with (fst (popWord (pushWord after (set_PC after s)))).
  apply popWord_pushWord_any. apply land_word_range.
Qed.

Lemma step_RST_witness :
  let s := opcode_state 0xEF in
  let after := Z.land (reg_PC s + 1) 0xFFFF in
  step s = set_PC (8 * 5) (pushWord after (set_PC after s)) /\
  reg_PC (step s) = 8 * 5 /\
  fst (popWord (step s)) = after /\
  halted (step s) = false.
Proof. apply (step_RST (opcode_state 0xEF) 5); [reflexivity | lia | reflexivity]. Defined.

(** ** CALL then RET *)

Lemma push_pop_SP (sp : Z) :
  0 <= sp < 65536 ->
  Z.land (Z.land (Z.land (Z.land (sp - 1) 0xFFFF - 1) 0xFFFF + 1) 0xFFFF + 1) 0xFFFF = sp.
Proof.
  intros Hsp.
  destruct (inc_dec_word (Z.land (sp - 1) 0xFFFF)) as [_ H1]. rewrite H1.
  rewrite land_word_idem.
  destruct (inc_dec_word_id sp Hsp) as [_ H2]. exact H2.
Qed.

Lemma reg_SP_popWord_pushWord (s : CPU8085) (v : Z) :
  0 <= reg_SP s < 65536 -> reg_SP (snd (popWord (pushWord v s))) = reg_SP s.
Proof.
  intros Hsp. rewrite reg_SP_popWord, reg_SP_pushWord. apply push_pop_SP. exact Hsp.
Qed.

(** X17. In a well-formed running state whose next opcode is CALL, [step]
    goes to the operand word; if the byte there is RET, the next [step]
    comes back to the address after the three-byte CALL with the stack
    pointer, the flags and the registers as before the call. *)
Theorem CALL_then_RET (s : CPU8085) :
  wf s ->
  halted s = false ->
  readByte s (reg_PC s) = 0xCD ->
  readByte (step s) (reg_PC (step s)) = 0xC9 ->
  reg_PC (step s) = readWord s (Z.land (reg_PC s + 1) 0xFFFF) /\
  reg_PC (step (step s)) = Z.land (reg_PC s + 3) 0xFFFF /\
  reg_SP (step (step s)) = reg_SP s /\
  flags (step (step s)) = flags s /\
  (reg_A (step (step s)) = reg_A s /\ getBC (step (step s)) = getBC s /\
   getDE (step (step s)) = getDE s /\ getHL (step (step s)) = getHL s).
Proof.
  intros Hwf Hh Hop Hret.
  set (pc1 := Z.land (reg_PC s + 1) 0xFFFF).
  set (after := Z.land (pc1 + 2) 0xFFFF).
  set (s1 := pushWord after (set_PC pc1 s)).
  assert (Hstep : step s = set_PC (readWord s pc1) s1).
  { fetch Hh Hop. reflexivity. }
  assert (Hh1 : halted (step s) = false) by (rewrite Hstep; exact Hh).
  rewrite (step_running (step s) Hh1), Hret.
  rewrite Hstep.
  assert (Hpop : fst (popWord s1) = after).
  { apply popWord_pushWord_any. apply land_word_range. }
  assert (HSP : reg_SP (snd (popWord s1)) = reg_SP s).
  { apply (reg_SP_popWord_pushWord (set_PC pc1 s) after).
    apply (word_reg_SP s Hwf). }
  split; [reflexivity|].
  split.
  { match goal with
    | |- reg_PC (executeInstruction 0xC9 ?t) = _ =>
        change (reg_PC (executeInstruction 0xC9 t)) with (fst (popWord s1))
    end.
    rewrite Hpop. subst after pc1. rewrite advance_by. f_equal. lia. }
  split.
  { match goal with
    | |- reg_SP (executeInstruction 0xC9 ?t) = _ =>
        change (reg_SP (executeInstruction 0xC9 t)) with (reg_SP (snd (popWord s1)))
    end.
    exact HSP. }
  repeat split.
Qed.

Lemma CALL_then_RET_witness :
  let s := call_ret_state in
  reg_PC (step s) = readWord s (Z.land (reg_PC s + 1) 0xFFFF) /\
  reg_PC (step (step s)) = Z.land (reg_PC s + 3) 0xFFFF /\
  reg_SP (step (step s)) = reg_SP s /\
  flags (step (step s)) = flags s /\
  (reg_A (step (step s)) = reg_A s /\ getBC (step (step s)) = getBC s /\
   getDE (step (step s)) = getDE s /\ getHL (step (step s)) = getHL s).
Proof.
  apply (CALL_then_RET call_ret_state); [ | reflexivity | reflexivity | reflexivity].
  unfold call_ret_state. apply wf_writeByte. cbn [loadProgram].
  repeat apply wf_writeByte. apply wf_new_CPU8085.
Defined.

(** ** XTHL *)

(** X18. In a well-formed state XTHL exchanges HL with the word at the top
    of the stack, leaves SP and the flags alone, and a second XTHL puts both
    back. *)
Theorem XTHL_exchanges (s : CPU8085) :
  wf s ->
  let s' := executeInstruction 0xE3 s in
  getHL s' = readWord s (reg_SP s) /\
  readWord s' (reg_SP s) = getHL s /\
  reg_SP s' = reg_SP s /\ flags s' = flags s /\
  getHL (executeInstruction 0xE3 s') = getHL s /\
  readWord (executeInstruction 0xE3 s') (reg_SP s) = readWord s (reg_SP s).
Proof.
  intros Hwf s'.
  assert (Hone : forall t, wf t ->
            getHL (executeInstruction 0xE3 t) = readWord t (reg_SP t) /\
            readWord (executeInstruction 0xE3 t) (reg_SP t) = getHL t).
  { intros t Ht. split; [reflexivity|].
    change (readWord (executeInstruction 0xE3 t) (reg_SP t))
      with (readWord (writeByte (reg_SP t + 1) (reg_H t)
                        (writeByte (reg_SP t) (reg_L t) t)) (reg_SP t)).
    unfold readWord, getHL.
    rewrite (readByte_writeByte_other _ (reg_SP t + 1) (reg_SP t))
      by apply next_address_differs.
    rewrite !readByte_writeByte_same by reflexivity.
    rewrite !land_byte_id; [reflexivity | apply byte_reg_L | apply byte_reg_H]; exact Ht. }
  assert (Hwf' : wf s') by (apply wf_executeInstruction; exact Hwf).
  destruct (Hone s Hwf) as [H1 H2]. destruct (Hone s' Hwf') as [H3 H4].
  change (reg_SP s') with (reg_SP s) in H3, H4.
  fold s' in H1, H2.
  split; [exact H1|]. split; [exact H2|]. split; [reflexivity|]. split; [reflexivity|].
  split.
  - rewrite H3. exact H2.
  - rewrite H4. exact H1.
Qed.

Lemma XTHL_exchanges_witness :
  let s := setHL 0xABCD (pushWord 0x1234 stack_state) in
  let s' := executeInstruction 0xE3 s in
  getHL s' = readWord s (reg_SP s) /\
  readWord s' (reg_SP s) = getHL s /\
  reg_SP s' = reg_SP s /\ flags s' = flags s /\
  getHL (executeInstruction 0xE3 s') = getHL s /\
  readWord (executeInstruction 0xE3 s') (reg_SP s) = readWord s (reg_SP s).
Proof.
  apply (XTHL_exchanges (setHL 0xABCD (pushWord 0x1234 stack_state))).
  apply wf_setHL, wf_pushWord. unfold stack_state.
  apply wf_set_SP; [unfold word; lia | apply wf_new_CPU8085].
Defined.

(** ** PUSH and POP of register pairs *)

Lemma registers_popWord_pushWord (s : CPU8085) (v : Z) :
  0 <= reg_SP s < 65536 -> registers (snd (popWord (pushWord v s))) = registers s.
Proof.
  intros Hsp.
  change (registers (snd (popWord (pushWord v s))))
    with (registers (set_SP (reg_SP (snd (popWord (pushWord v s)))) s)).
  rewrite reg_SP_popWord_pushWord by exact Hsp.
  f_equal. apply registers_eta.
Qed.

Lemma pair_set_congr (w : Z) (t t' : CPU8085) :
  registers t = registers t' ->
  registers (setBC w t) = registers (setBC w t') /\
  registers (setDE w t) = registers (setDE w t') /\
  registers (setHL w t) = registers (setHL w t').
Proof.
  destruct t as [r1 ? ? ? ?], t' as [r2 ? ? ? ?]. cbn [registers].
  intros ->. repeat split.
Qed.

(** X19. In a well-formed state PUSH rp followed by POP rp gives back all
    registers (for B, D and H), and PUSH of one pair followed by POP of
    another copies the first pair into the second. *)
Theorem PUSH_POP_pairs (s : CPU8085) :
  wf s ->
  registers (executeInstruction 0xC1 (executeInstruction 0xC5 s)) = registers s /\
  registers (executeInstruction 0xD1 (executeInstruction 0xD5 s)) = registers s /\
  registers (executeInstruction 0xE1 (executeInstruction 0xE5 s)) = registers s /\
  (getDE (executeInstruction 0xD1 (executeInstruction 0xC5 s)) = getBC s /\
   getHL (executeInstruction 0xE1 (executeInstruction 0xD5 s)) = getDE s /\
   getBC (executeInstruction 0xC1 (executeInstruction 0xE5 s)) = getHL s).
Proof.
  intros Hwf.
  pose proof (word_reg_SP s Hwf) as Hsp.
  pose proof (word_getBC s Hwf) as HwBC.
  pose proof (word_getDE s Hwf) as HwDE.
  pose proof (word_getHL s Hwf) as HwHL.
  destruct (pair_set_get s Hwf) as (HBC & HDE & HHL).
  assert (Hreg : forall v, registers (snd (popWord (pushWord v s))) = registers s)
    by (intros v; apply registers_popWord_pushWord; exact Hsp).
  split.
  { change (registers (setBC (fst (popWord (pushWord (getBC s) s)))
                             (snd (popWord (pushWord (getBC s) s)))) = registers s).
    rewrite popWord_pushWord_any by exact HwBC.
    destruct (pair_set_congr (getBC s) _ _ (Hreg (getBC s))) as (-> & _ & _).
    rewrite HBC. reflexivity. }
  split.
  { change (registers (setDE (fst (popWord (pushWord (getDE s) s)))
                             (snd (popWord (pushWord (getDE s) s)))) = registers s).
    rewrite popWord_pushWord_any by exact HwDE.
    destruct (pair_set_congr (getDE s) _ _ (Hreg (getDE s))) as (_ & -> & _).
    rewrite HDE. reflexivity. }
  split.
  { change (registers (setHL (fst (popWord (pushWord (getHL s) s)))
                             (snd (popWord (pushWord (getHL s) s)))) = registers s).
    rewrite popWord_pushWord_any by exact HwHL.
    destruct (pair_set_congr (getHL s) _ _ (Hreg (getHL s))) as (_ & _ & ->).
    rewrite HHL. reflexivity. }
  repeat split.
  - change (getDE (setDE (fst (popWord (pushWord (getBC s) s)))
                         (snd (popWord (pushWord (getBC s) s)))) = getBC s).
    rewrite popWord_pushWord_any by exact HwBC.
    destruct (pair_get_set (snd (popWord (pushWord (getBC s) s))) (getBC s))
      as (_ & -> & _).
    apply land_word_id. exact HwBC.
  - change (getHL (setHL (fst (popWord (pushWord (getDE s) s)))
                         (snd (popWord (pushWord (getDE s) s)))) = getDE s).
    rewrite popWord_pushWord_any by exact HwDE.
    destruct (pair_get_set (snd (popWord (pushWord (getDE s) s))) (getDE s))
      as (_ & _ & ->).
    apply land_word_id. exact HwDE.
  - change (getBC (setBC (fst (popWord (pushWord (getHL s) s)))
                         (snd (popWord (pushWord (getHL s) s)))) = getHL s).
    rewrite popWord_pushWord_any by exact HwHL.
    destruct (pair_get_set (snd (popWord (pushWord (getHL s) s))) (getHL s))
      as (-> & _ & _).
    apply land_word_id. exact HwHL.
Qed.

Lemma PUSH_POP_pairs_witness :
  let s := setBC 0x1234 new_CPU8085 in
  registers (executeInstruction 0xC1 (executeInstruction 0xC5 s)) = registers s /\
  registers (executeInstruction 0xD1 (executeInstruction 0xD5 s)) = registers s /\
  registers (executeInstruction 0xE1 (executeInstruction 0xE5 s)) = registers s /\
  (getDE (executeInstruction 0xD1 (executeInstruction 0xC5 s)) = getBC s /\
   getHL (executeInstruction 0xE1 (executeInstruction 0xD5 s)) = getDE s /\
   getBC (executeInstruction 0xC1 (executeInstruction 0xE5 s)) = getHL s).
Proof.
  apply (PUSH_POP_pairs (setBC 0x1234 new_CPU8085)).
  apply wf_setBC, wf_new_CPU8085.
Defined.

(** ** OUT then IN *)

(** X20. In a well-formed running state at the program [OUT p; IN p], the
    first [step] stores the accumulator in port [p] and changes no other
    port; the second loads it back, so after both the accumulator, memory
    and flags are as before and the program counter is four bytes on. *)
Theorem OUT_then_IN (s : CPU8085) (port : Z) :
  wf s ->
  halted s = false ->
  readByte s (reg_PC s) = 0xD3 ->
  readByte s (reg_PC s + 1) = port ->
  readByte s (reg_PC s + 2) = 0xDB ->
  readByte s (reg_PC s + 3) = port ->
  let s1 := step s in
  let s2 := step s1 in
  u8_get (ioPorts s1) port = reg_A s /\
  (forall other, other <> port -> u8_get (ioPorts s1) other = u8_get (ioPorts s) other) /\
  reg_A s2 = reg_A s /\
  reg_PC s2 = Z.land (reg_PC s + 4) 0xFFFF /\
  memory s2 = memory s /\ flags s2 = flags s.
Proof.
  intros Hwf Hh Hop Hport Hop2 Hport2 s1 s2.
  assert (Hbyte : 0 <= port < 256) by (rewrite <- Hport; apply byte_readByte; exact Hwf).
  assert (HA : 0 <= reg_A s < 256) by apply (byte_reg_A s Hwf).
  set (pc1 := Z.land (reg_PC s + 1) 0xFFFF).
  assert (Hp1 : readByte s pc1 = port) by (subst pc1; rewrite readByte_masked; exact Hport).
  assert (Hs1 : s1 = set_PC (Z.land (pc1 + 1) 0xFFFF)
                       (with_ioPorts (u8_set IO_SIZE (ioPorts s) port (reg_A s)) s)).
  { subst s1. fetch Hh Hop. rewrite <- Hp1. reflexivity. }
  assert (Hpc2 : Z.land (pc1 + 1) 0xFFFF = Z.land (reg_PC s + 2) 0xFFFF).
  { subst pc1. rewrite advance_by. f_equal. lia. }
  assert (Hio : u8_get (ioPorts s1) port = reg_A s).
  { rewrite Hs1. cbn [ioPorts set_PC with_registers with_ioPorts].
    rewrite u8_get_set_same by exact Hbyte. apply Z.mod_small. exact HA. }
  assert (Hh1 : halted s1 = false) by (rewrite Hs1; exact Hh).
  assert (Hop1 : readByte s1 (reg_PC s1) = 0xDB).
  { rewrite Hs1.
    change (readByte s (Z.land (pc1 + 1) 0xFFFF) = 0xDB).
    rewrite Hpc2, readByte_masked. exact Hop2. }
  assert (Hp2 : readByte s1 (Z.land (reg_PC s1 + 1) 0xFFFF) = port).
  { rewrite Hs1.
    change (readByte s (Z.land (Z.land (pc1 + 1) 0xFFFF + 1) 0xFFFF) = port).
    rewrite Hpc2, advance_by, readByte_masked.
    replace (reg_PC s + 2 + 1) with (reg_PC s + 3) by lia. exact Hport2. }
  assert (Hs2 : s2 = set_PC (Z.land (Z.land (reg_PC s1 + 1) 0xFFFF + 1) 0xFFFF)
                       (set_A (u8_get (ioPorts s1) port) s1)).
  { subst s2. fetch Hh1 Hop1. rewrite <- Hp2. reflexivity. }
  split; [exact Hio|].
  split.
  { intros other Hother. rewrite Hs1. cbn [ioPorts set_PC with_registers with_ioPorts].
    apply u8_get_set_other. congruence. }
  rewrite Hs2, Hio.
  split; [reflexivity|].
  split.
  { change (Z.land (Z.land (reg_PC s1 + 1) 0xFFFF + 1) 0xFFFF
            = Z.land (reg_PC s + 4) 0xFFFF).
    rewrite Hs1.
    change (Z.land (Z.land (Z.land (pc1 + 1) 0xFFFF + 1) 0xFFFF + 1) 0xFFFF
            = Z.land (reg_PC s + 4) 0xFFFF).
    rewrite Hpc2, (advance_by (reg_PC s) 2 1), (advance_by (reg_PC s + 2) 1 1).
    f_equal. lia. }
  rewrite Hs1. split; reflexivity.
Qed.

Lemma OUT_then_IN_witness :
  let s := out_in_state in
  let s1 := step s in
  let s2 := step s1 in
  u8_get (ioPorts s1) 0x07 = reg_A s /\
  (forall other, other <> 0x07 -> u8_get (ioPorts s1) other = u8_get (ioPorts s) other) /\
  reg_A s2 = reg_A s /\
  reg_PC s2 = Z.land (reg_PC s + 4) 0xFFFF /\
  memory s2 = memory s /\ flags s2 = flags s.
Proof.
  apply (OUT_then_IN out_in_state 0x07); try reflexivity.
  unfold out_in_state. apply wf_set_A; [unfold byte; lia|].
  cbn [loadProgram]. repeat apply wf_writeByte. apply wf_new_CPU8085.
Defined.

(** ** What each opcode leaves alone *)

(** One goal per byte value of an opcode (and one for every longer or
    negative number), each with the opcode in the goal and in [Hop] a
    literal. *)
Ltac all_opcodes opcode :=
  destruct opcode as [|opcode|opcode];
  [ | do 8 (try (destruct opcode as [opcode|opcode|])) | ].

Ltac frame_case Hop :=
  first [ reflexivity
        | (exfalso; vm_compute in Hop; discriminate Hop)
        | cbv beta iota zeta delta [executeInstruction];
          repeat match goal with
                 | |- context [if ?c then _ else _] => destruct c
                 end; reflexivity ].

Lemma executeInstruction_memory_frame (opcode : Z) (s : CPU8085) :
  opcode_in opcode memory_writers = false ->
  memory (executeInstruction opcode s) = memory s.
Proof. intros Hop. all_opcodes opcode; frame_case Hop. Qed.

Lemma executeInstruction_ioPorts_frame (opcode : Z) (s : CPU8085) :
  opcode <> 0xD3 -> ioPorts (executeInstruction opcode s) = ioPorts s.
Proof.
  intros Hop. all_opcodes opcode;
    first [ reflexivity
          | (exfalso; apply Hop; reflexivity)
          | cbv beta iota zeta delta [executeInstruction];
            repeat match goal with
                   | |- context [if ?c then _ else _] => destruct c
                   end; reflexivity ].
Qed.

Lemma executeInstruction_flags_frame (opcode : Z) (s : CPU8085) :
  opcode_in opcode flag_writers = false ->
  flags (executeInstruction opcode s) = flags s.
Proof. intros Hop. all_opcodes opcode; frame_case Hop. Qed.

Lemma executeInstruction_SP_frame (opcode : Z) (s : CPU8085) :
  opcode_in opcode SP_writers = false ->
  reg_SP (executeInstruction opcode s) = reg_SP s.
Proof. intros Hop. all_opcodes opcode; frame_case Hop. Qed.

(** An opcode outside the byte range contradicts [Hlt : (opcode ?= 256) = Lt]. *)
Ltac not_a_byte opcode Hlt :=
  exfalso; first [ discriminate Hlt | destruct opcode; discriminate Hlt ].

Lemma executeInstruction_halted (opcode : Z) (s : CPU8085) :
  0 <= opcode < 256 ->
  halted (executeInstruction opcode s)
  = if opcode_in opcode halting_opcodes then true else halted s.
Proof.
  intros [Hge Hlt]. unfold Z.lt in Hlt.
  destruct opcode as [|opcode|opcode]; [reflexivity | | lia].
  do 8 (try (destruct opcode as [opcode|opcode|]));
    first [ reflexivity
          | not_a_byte opcode Hlt
          | lazymatch goal with
            | |- _ = (if ?c then _ else _) =>
                let b := eval vm_compute in c in change c with b
            end;
            cbv beta iota zeta delta [executeInstruction];
            repeat match goal with
                   | |- context [if ?c then _ else _] => destruct c
                   end; reflexivity ].
Qed.

(** An opcode outside the byte range has no [case] either. *)
Lemma executeInstruction_not_byte (opcode : Z) (s : CPU8085) :
  ~ 0 <= opcode < 256 -> executeInstruction opcode s = with_halted true s.
Proof.
  intros Hr. destruct opcode as [|opcode|opcode]; [lia | | reflexivity].
  do 8 (try (destruct opcode as [opcode|opcode|]));
    first [ reflexivity | (exfalso; apply Hr; lia) ].
Qed.

(** ** What [step] leaves alone *)

(** X21. [step] leaves memory as it is unless the byte at the program
    counter is one of the storing opcodes [memory_writers]. *)
Theorem step_memory_frame (s : CPU8085) :
  opcode_in (readByte s (reg_PC s)) memory_writers = false ->
  memory (step s) = memory s.
Proof.
  intros Hop. unfold step. destruct (halted s); [reflexivity|]. cbv zeta.
  rewrite executeInstruction_memory_frame by exact Hop. reflexivity.
Qed.

Lemma step_memory_frame_witness : memory (step inr_a_state) = memory inr_a_state.
Proof. apply (step_memory_frame inr_a_state). reflexivity. Defined.

(** X22. [step] leaves the I/O ports as they are unless the byte at the
    program counter is OUT (0xD3). *)
Theorem step_ioPorts_frame (s : CPU8085) :
  readByte s (reg_PC s) <> 0xD3 ->
  ioPorts (step s) = ioPorts s.
Proof.
  intros Hop. unfold step. destruct (halted s); [reflexivity|]. cbv zeta.
  rewrite executeInstruction_ioPorts_frame by exact Hop. reflexivity.
Qed.

Lemma step_ioPorts_frame_witness : ioPorts (step inr_a_state) = ioPorts inr_a_state.
Proof. apply (step_ioPorts_frame inr_a_state). discriminate. Defined.

(** X23. [step] leaves the five flags as they are unless the byte at the
    program counter is one of [flag_writers]: in particular no MOV, MVI,
    LXI, load, store, INX, DCX, jump, call, return, PUSH, or POP of a
    register pair changes a flag. *)
Theorem step_flags_frame (s : CPU8085) :
  opcode_in (readByte s (reg_PC s)) flag_writers = false ->
  flags (step s) = flags s.
Proof.
  intros Hop. unfold step. destruct (halted s); [reflexivity|]. cbv zeta.
  rewrite executeInstruction_flags_frame by exact Hop. reflexivity.
Qed.

Lemma step_flags_frame_witness :
  flags (step (branch_state 0xCC)) = flags (branch_state 0xCC).
Proof. apply (step_flags_frame (branch_state 0xCC)). reflexivity. Defined.

(** X24. [step] leaves the stack pointer as it is unless the byte at the
    program counter is one of [SP_writers]. *)
Theorem step_SP_frame (s : CPU8085) :
  opcode_in (readByte s (reg_PC s)) SP_writers = false ->
  reg_SP (step s) = reg_SP s.
Proof.
  intros Hop. unfold step. destruct (halted s); [reflexivity|]. cbv zeta.
  rewrite executeInstruction_SP_frame by exact Hop. reflexivity.
Qed.

Lemma step_SP_frame_witness : reg_SP (step inr_a_state) = reg_SP inr_a_state.
Proof. apply (step_SP_frame inr_a_state). reflexivity. Defined.

(** ** When [step] halts *)

(** X25. From a well-formed running state, [step] ends halted exactly when
    the byte at the program counter is HLT or one of the 37 bytes without a
    [case]. *)
Theorem step_halts (s : CPU8085) :
  wf s ->
  halted s = false ->
  halted (step s) = opcode_in (readByte s (reg_PC s)) halting_opcodes.
Proof.
  intros Hwf Hh. rewrite (step_running s Hh).
  rewrite executeInstruction_halted by (apply byte_readByte; exact Hwf).
  destruct (opcode_in (readByte s (reg_PC s)) halting_opcodes); [reflexivity | exact Hh].
Qed.

Lemma step_halts_witness :
  halted (step (opcode_state 0xA2))
  = opcode_in (readByte (opcode_state 0xA2) (reg_PC (opcode_state 0xA2))) halting_opcodes.
Proof.
  apply (step_halts (opcode_state 0xA2)); [|reflexivity].
  apply wf_writeByte, wf_new_CPU8085.
Defined.

(** Once halted, the run loop's repeated [step] changes nothing. *)
Lemma steps_halted (n : nat) (s : CPU8085) : halted s = true -> steps n s = s.
Proof.
  intros Hh. induction n as [|n IH]; [reflexivity|].
  cbn [steps]. unfold step. rewrite Hh. exact IH.
Qed.

(** ** The range invariant spelled out *)

(** X1. In every state the application can reach, the seven 8-bit registers
    hold bytes, SP and PC hold 16-bit words, every memory and port read
    gives a byte, and the two arrays have entries only inside their
    bounds. *)
Theorem reachable_state_ranges (s : CPU8085) :
  reachable s ->
  (0 <= reg_A s < 256 /\ 0 <= reg_B s < 256 /\ 0 <= reg_C s < 256 /\
   0 <= reg_D s < 256 /\ 0 <= reg_E s < 256 /\ 0 <= reg_H s < 256 /\
   0 <= reg_L s < 256) /\
  (0 <= reg_SP s < 65536 /\ 0 <= reg_PC s < 65536) /\
  (forall address, 0 <= readByte s address < 256) /\
  (forall port, 0 <= u8_get (ioPorts s) port < 256) /\
  (forall i v, memory s !! i = Some v -> 0 <= i < 65536) /\
  (forall i v, ioPorts s !! i = Some v -> 0 <= i < 256).
Proof.
  intros Hr. apply reachable_wf in Hr.
  pose proof Hr as (Hregs & Hm & Hio).
  split; [|split; [|split; [|split; [|split]]]].
  - destruct s as [[] ? ? ? ?]. unfold wf_registers, byte in Hregs. cbn in *. tauto.
  - split; [apply word_reg_SP | apply word_reg_PC]; exact Hr.
  - intros address. apply byte_readByte. exact Hr.
  - intros port. apply byte_port. exact Hr.
  - intros i v Hi. apply (Hm i v Hi).
  - intros i v Hi. apply (Hio i v Hi).
Qed.

Lemma add_program_final_reachable : reachable add_program_final.
Proof.
  unfold add_program_final. do 4 apply reach_step.
  apply reach_go; [|lia]. repeat apply reach_writeByte. apply reach_new.
Qed.

Lemma reachable_state_ranges_witness :
  (0 <= reg_A add_program_final < 256 /\ 0 <= reg_B add_program_final < 256 /\
   0 <= reg_C add_program_final < 256 /\ 0 <= reg_D add_program_final < 256 /\
   0 <= reg_E add_program_final < 256 /\ 0 <= reg_H add_program_final < 256 /\
   0 <= reg_L add_program_final < 256) /\
  (0 <= reg_SP add_program_final < 65536 /\ 0 <= reg_PC add_program_final < 65536) /\
  (forall address, 0 <= readByte add_program_final address < 256) /\
  (forall port, 0 <= u8_get (ioPorts add_program_final) port < 256) /\
  (forall i v, memory add_program_final !! i = Some v -> 0 <= i < 65536) /\
  (forall i v, ioPorts add_program_final !! i = Some v -> 0 <= i < 256).
Proof. apply (reachable_state_ranges add_program_final add_program_final_reachable). Defined.

(** ** Decimal addition *)

Lemma executeInstruction_DAA (s : CPU8085) :
  (reg_A (executeInstruction 0x27 s), flag_CY (executeInstruction 0x27 s))
  = DAA_of (reg_A s) (flag_AC s) (flag_CY s).
Proof.
  unfold DAA_of. cbv beta iota zeta delta [executeInstruction].
  destruct (flag_AC s || (9 <? Z.land (reg_A s) 15));
    destruct (flag_CY s || (9 <? Z.shiftr (reg_A s) 4)
              || (9 <=? Z.shiftr (reg_A s) 4) && (9 <? Z.land (reg_A s) 15));
    reflexivity.
Qed.

Lemma ADD_DAA_state (s : CPU8085) :
  let add := executeInstruction 0x27 (executeInstruction 0x80 s) in
  let adc := executeInstruction 0x27 (executeInstruction 0x88 s) in
  (reg_A add, flag_CY add) = add_then_DAA (reg_A s) (reg_B s) false /\
  (reg_A adc, flag_CY adc) = add_then_DAA (reg_A s) (reg_B s) (flag_CY s).
Proof. cbv zeta. rewrite !executeInstruction_DAA. split; reflexivity. Qed.

Lemma add_then_DAA_BCD (x y : Z) (cy : bool) :
  0 <= x < 100 -> 0 <= y < 100 ->
  add_then_DAA (bcd x) (bcd y) cy
  = (bcd ((x + y + bit cy) mod 100), 100 <=? x + y + bit cy).
Proof.
  intros Hx Hy.
  assert (Hall : forall c,
    check_below 100 (fun x => check_below 100 (fun y =>
      (fst (add_then_DAA (bcd x) (bcd y) c) =? fst (bcd ((x + y + bit c) mod 100),
                                                    100 <=? x + y + bit c))
      && Bool.eqb (snd (add_then_DAA (bcd x) (bcd y) c))
                  (snd (bcd ((x + y + bit c) mod 100), 100 <=? x + y + bit c))))
    = true).
  { intros [|]; vm_compute; reflexivity. }
  pose proof (check_below_sound 100 _ (Hall cy) x Hx) as H1. cbv beta in H1.
  pose proof (check_below_sound 100 _ H1 y Hy) as H2. cbv beta in H2.
  apply acc_carry_eqb. exact H2.
Qed.

(** X26. When the accumulator and register B hold the packed BCD bytes of
    [x] and [y] (both below 100), ADD B followed by DAA leaves the packed
    BCD byte of [(x + y) mod 100] in the accumulator and sets Carry exactly
    when [x + y] reaches 100; ADC B followed by DAA does the same for
    [x + y + Carry]. *)
Theorem ADD_DAA_adds_BCD (s : CPU8085) (x y : Z) :
  0 <= x < 100 -> 0 <= y < 100 ->
  reg_A s = bcd x -> reg_B s = bcd y ->
  let add := executeInstruction 0x27 (executeInstruction 0x80 s) in
  let adc := executeInstruction 0x27 (executeInstruction 0x88 s) in
  (reg_A add = bcd ((x + y) mod 100) /\
   (flag_CY add = true <-> 100 <= x + y)) /\
  (reg_A adc = bcd ((x + y + bit (flag_CY s)) mod 100) /\
   (flag_CY adc = true <-> 100 <= x + y + bit (flag_CY s))).
Proof.
  intros Hx Hy HA HB add adc.
  destruct (ADD_DAA_state s) as [Hadd Hadc].
  cbv zeta in Hadd, Hadc. fold add in Hadd. fold adc in Hadc.
  rewrite HA, HB, add_then_DAA_BCD in Hadd, Hadc by assumption.
  change (bit false) with 0 in Hadd. rewrite Z.add_0_r in Hadd.
  injection Hadd as HaddA HaddC. injection Hadc as HadcA HadcC.
  rewrite HaddA, HaddC, HadcA, HadcC, !Z.leb_le. tauto.
Qed.

Lemma ADD_DAA_adds_BCD_witness :
  let s := set_CY true (set_B 0x68 (set_A 0x57 new_CPU8085)) in
  let add := executeInstruction 0x27 (executeInstruction 0x80 s) in
  let adc := executeInstruction 0x27 (executeInstruction 0x88 s) in
  (reg_A add = bcd ((57 + 68) mod 100) /\
   (flag_CY add = true <-> 100 <= 57 + 68)) /\
  (reg_A adc = bcd ((57 + 68 + bit (flag_CY s)) mod 100) /\
   (flag_CY adc = true <-> 100 <= 57 + 68 + bit (flag_CY s))).
Proof.
  apply (ADD_DAA_adds_BCD (set_CY true (set_B 0x68 (set_A 0x57 new_CPU8085))) 57 68);
    [lia | lia | reflexivity | reflexivity].
Defined.

(** ** The memory view follows the examined address *)

Lemma align_to_row (x : Z) :
  0 <= x < 65536 -> Z.land x 0xFFF0 = 16 * (x / 16).
Proof.
  intros Hx. change 0xFFF0 with (Z.land 0xFFFF (Z.lnot 15)).
  rewrite Z.land_assoc, land_word_id by exact Hx.
  rewrite <- Z.sub_land_same_l. change 15 with 0x0F. rewrite land_nibble_mod.
  pose proof (Z.div_mod x 16). lia.
Qed.

Lemma autoFocus_window (current : Z) :
  0 <= current < 65536 ->
  let start := Z.max 0 (Z.land (current - 128) 0xFFF0) in
  start mod 16 = 0 /\
  (128 <= current -> current - 143 <= start <= current - 128) /\
  (current < 128 -> start = 0xFF80 + 16 * (current / 16)).
Proof.
  intros Hc start. subst start.
  destruct (Z.le_gt_cases 128 current) as [Hhigh | Hlow].
  - rewrite align_to_row by lia.
    pose proof (Z.div_mod (current - 128) 16).
    pose proof (Z.mod_pos_bound (current - 128) 16).
    assert (0 <= (current - 128) / 16) by (apply Z.div_pos; lia).
    rewrite Z.max_r by lia.
    split; [rewrite Z.mul_comm; apply Z.mod_mul; lia|].
    split; intros; lia.
  - assert (Hk : 0 <= current < Z.of_nat 128) by lia.
    apply (check_below_sound 128
             (fun c => let start := Z.max 0 (Z.land (c - 128) 0xFFF0) in
                       (start mod 16 =? 0) && (start =? 0xFF80 + 16 * (c / 16)))) in Hk;
      [|vm_compute; reflexivity].
    cbv zeta in Hk. apply andb_true_iff in Hk. destruct Hk as [Hmod Hcase].
    apply Z.eqb_eq in Hmod. apply Z.eqb_eq in Hcase.
    split; [exact Hmod|]. split; intros; [lia | exact Hcase].
Qed.

(** X27. For an examined address from 128 up, the view start that the
    effect leaves is at or below the address and less than 256 bytes below
    it, so the address is shown; when the effect moves the view, the new
    start is a multiple of 16 between 128 and 143 bytes below the
    address. *)
Theorem autoFocus_shows_address (current start : Z) :
  128 <= current < 65536 ->
  let start' := autoFocusStart current start in
  start' <= current < start' + 256 /\
  (start' = start \/ (start' mod 16 = 0 /\ current - 143 <= start' <= current - 128)).
Proof.
  intros Hc start'. subst start'. unfold autoFocusStart.
  destruct ((start + 256 <=? current) || (current <? start)) eqn:Hout.
  - destruct (autoFocus_window current) as (Hmod & Hhigh & _); [lia|].
    specialize (Hhigh ltac:(lia)). cbv zeta in Hmod, Hhigh.
    split; [lia|]. right. split; [exact Hmod | exact Hhigh].
  - apply orb_false_iff in Hout. destruct Hout as [H1 H2].
    apply Z.leb_gt in H1. apply Z.ltb_ge in H2. split; [lia | left; reflexivity].
Qed.

Lemma autoFocus_shows_address_witness :
  let start' := autoFocusStart 0x2005 0x0000 in
  start' <= 0x2005 < start' + 256 /\
  (start' = 0x0000 \/
   (start' mod 16 = 0 /\ 0x2005 - 143 <= start' <= 0x2005 - 128)).
Proof. apply (autoFocus_shows_address 0x2005 0x0000). lia. Defined.

(** X28. Below address 128 the subtraction goes negative and the mask turns it
    into an address at the top of memory: the view no longer shows the
    examined address. *)
Theorem autoFocus_low_address (current start : Z) :
  0 <= current < 128 ->
  current < start ->
  let start' := autoFocusStart current start in
  0xFF80 <= start' /\ ~ (start' <= current < start' + 256).
Proof.
  intros Hc Hlt start'. subst start'. unfold autoFocusStart.
  replace ((start + 256 <=? current) || (current <? start)) with true.
  - destruct (autoFocus_window current) as (_ & _ & Hlow); [lia|].
    specialize (Hlow ltac:(lia)). cbv zeta in Hlow. rewrite Hlow.
    assert (0 <= current / 16) by (apply Z.div_pos; lia). lia.
  - symmetry. apply orb_true_iff. right. apply Z.ltb_lt. exact Hlt.
Qed.

Lemma autoFocus_low_address_witness :
  let start' := autoFocusStart 0x0000 0x2000 in
  0xFF80 <= start' /\ ~ (start' <= 0x0000 < start' + 256).
Proof. apply (autoFocus_low_address 0x0000 0x2000); lia. Defined.

(** The effect run twice is the effect run once: the value it sets is the
    value it would set again. *)
Lemma autoFocusStart_settles (current start : Z) :
  autoFocusStart current (autoFocusStart current start)
  = autoFocusStart current start.
Proof.
  unfold autoFocusStart.
  destruct ((start + 256 <=? current) || (current <? start)) eqn:Hout.
  - destruct ((Z.max 0 (Z.land (current - 128) 0xFFF0) + 256 <=? current)
              || (current <? Z.max 0 (Z.land (current - 128) 0xFFF0)));
      reflexivity.
  - rewrite Hout. reflexivity.
Qed.

(** The view start once a submit has been taken in, from a view on which the
    effect has already run: the requested start when the examined address
    lies within 256 bytes from it, the start the effect computes
    otherwise. *)
Lemma viewAfterSubmit_start (current start requested : Z) :
  autoFocusStart current start = start ->
  (if requested =? start then requested else autoFocusStart current requested)
  = (if (requested <=? current) && (current <? requested + 256) then requested
     else Z.max 0 (Z.land (current - 128) 0xFFF0)).
Proof.
  intros Hsettled. unfold autoFocusStart in *.
  destruct (requested =? start) eqn:Hsame.
  - apply Z.eqb_eq in Hsame. subst start.
    destruct (requested <=? current) eqn:H1, (current <? requested + 256) eqn:H2;
      cbn [andb]; try reflexivity.
    + apply Z.ltb_ge in H2. apply Z.leb_le in H2. rewrite H2 in Hsettled.
      cbn [orb] in Hsettled. symmetry. exact Hsettled.
    + apply Z.leb_gt in H1. apply Z.ltb_lt in H1. rewrite H1, orb_true_r in Hsettled.
      symmetry. exact Hsettled.
    + apply Z.leb_gt in H1. apply Z.ltb_lt in H1. rewrite H1, orb_true_r in Hsettled.
      symmetry. exact Hsettled.
  - destruct (requested <=? current) eqn:H1, (current <? requested + 256) eqn:H2;
      cbn [andb].
    + apply Z.leb_le in H1. apply Z.ltb_lt in H2.
      replace (requested + 256 <=? current) with false by (symmetry; apply Z.leb_gt; lia).
      replace (current <? requested) with false by (symmetry; apply Z.ltb_ge; lia).
      reflexivity.
    + apply Z.ltb_ge in H2.
      replace (requested + 256 <=? current) with true by (symmetry; apply Z.leb_le; lia).
      reflexivity.
    + apply Z.leb_gt in H1.
      replace (current <? requested) with true by (symmetry; apply Z.ltb_lt; lia).
      rewrite orb_true_r. reflexivity.
    + apply Z.leb_gt in H1.
      replace (current <? requested) with true by (symmetry; apply Z.ltb_lt; lia).
      rewrite orb_true_r. reflexivity.
Qed.

(** X29. For an address in 0..0xFFFF, [handleAddrSubmit] calls
    [onSetStartAddressView] with a multiple of 16 in 0..0xFFF0 that is at
    most the address and less than 16 below it. In the application, from a
    view on which the auto-focus effect has run, what is then shown is again
    such a view; its start is the requested one when the examined address
    lies within 256 bytes from the requested start, and otherwise the start
    the effect computes from the examined address, which overrides the
    request. The entered address is in the first row shown exactly when the
    view start is the requested one, and that is exactly when the examined
    address lies in the requested window, or is below 128 with the requested
    start the one the effect computes for it. *)
Theorem handleAddrSubmit_then_autoFocus (newAddr : Z) (a : AppView) :
  0 <= newAddr <= 0xFFFF ->
  0 <= currentExamAddress a < 65536 ->
  autoFocusEffect a = a ->
  let current := currentExamAddress a in
  let requested := Z.land newAddr 0xFFF0 in
  let settled := viewAfterSubmit (Some newAddr) a in
  let start := memoryViewStartAddress settled in
  handleAddrSubmit setMemoryViewStartAddress (Some newAddr) a
  = setMemoryViewStartAddress requested a /\
  (requested mod 16 = 0 /\ requested <= newAddr < requested + 16 /\
   0 <= requested <= 0xFFF0) /\
  currentExamAddress settled = current /\
  autoFocusEffect settled = settled /\
  start = (if (requested <=? current) && (current <? requested + 256)
           then requested
           else Z.max 0 (Z.land (current - 128) 0xFFF0)) /\
  (start <= newAddr < start + 16 <-> start = requested) /\
  (start = requested <->
   requested <= current < requested + 256 \/
   (current < 128 /\ requested = 0xFF80 + 16 * (current / 16))).
Proof.
  intros Hr Hc Hsettled current requested settled start.
  destruct a as [c o]. cbn [currentExamAddress] in Hc, current. subst current.
  assert (Ho : autoFocusStart c o = o).
  { apply (f_equal memoryViewStartAddress) in Hsettled. exact Hsettled. }
  assert (Hsub : handleAddrSubmit setMemoryViewStartAddress (Some newAddr) (mkAppView c o)
                 = mkAppView c requested).
  { unfold handleAddrSubmit.
    replace ((0 <=? newAddr) && (newAddr <=? 0xFFFF)) with true
      by (symmetry; apply andb_true_iff; split; apply Z.leb_le; lia).
    reflexivity. }
  assert (Hreq : requested = 16 * (newAddr / 16)) by (apply align_to_row; lia).
  assert (Hrow : requested mod 16 = 0 /\ requested <= newAddr < requested + 16 /\
                 0 <= requested <= 0xFFF0).
  { pose proof (Z.div_mod newAddr 16). pose proof (Z.mod_pos_bound newAddr 16).
    assert (0 <= newAddr / 16 <= 4095).
    { split; [apply Z.div_pos; lia|]. apply Z.lt_succ_r. apply Z.div_lt_upper_bound; lia. }
    split; [rewrite Hreq, Z.mul_comm; apply Z.mod_mul; lia|]. lia. }
  assert (Hsettled' : settled
                      = mkAppView c (if requested =? o then requested
                                     else autoFocusStart c requested)).
  { subst settled. unfold viewAfterSubmit. rewrite Hsub.
    cbn [memoryViewStartAddress]. destruct (requested =? o); reflexivity. }
  assert (Hstart : start
                   = (if (requested <=? c) && (c <? requested + 256) then requested
                      else Z.max 0 (Z.land (c - 128) 0xFFF0))).
  { subst start. rewrite Hsettled'. cbn [memoryViewStartAddress].
    apply viewAfterSubmit_start. exact Ho. }
  destruct (autoFocus_window c Hc) as (Hmod & Hhigh & Hlow). cbv zeta in Hmod, Hhigh, Hlow.
  assert (Hstart_mod : start mod 16 = 0).
  { rewrite Hstart. destruct ((requested <=? c) && (c <? requested + 256));
      [apply Hrow | exact Hmod]. }
  split; [exact Hsub|]. split; [exact Hrow|].
  split; [rewrite Hsettled'; reflexivity|].
  split.
  { rewrite Hsettled'. unfold autoFocusEffect, setMemoryViewStartAddress.
    cbn [currentExamAddress memoryViewStartAddress]. f_equal.
    destruct (requested =? o) eqn:Hsame.
    - apply Z.eqb_eq in Hsame. rewrite Hsame. exact Ho.
    - apply autoFocusStart_settles. }
  split; [exact Hstart|].
  split.
  { pose proof (Z.div_mod start 16). destruct Hrow as (_ & Hrow & _). split; lia. }
  rewrite Hstart.
  destruct (requested <=? c) eqn:H1, (c <? requested + 256) eqn:H2; cbn [andb].
  - apply Z.leb_le in H1. apply Z.ltb_lt in H2. split; [left; lia | reflexivity].
  - apply Z.leb_le in H1. apply Z.ltb_ge in H2.
    assert (128 <= c) by lia. specialize (Hhigh ltac:(lia)). split; lia.
  - apply Z.leb_gt in H1.
    destruct (Z_lt_ge_dec c 128) as [Hc128 | Hc128].
    + specialize (Hlow Hc128). rewrite Hlow. split; [intros Heq; right; lia | lia].
    + specialize (Hhigh ltac:(lia)). split; lia.
  - apply Z.leb_gt in H1.
    destruct (Z_lt_ge_dec c 128) as [Hc128 | Hc128].
    + specialize (Hlow Hc128). rewrite Hlow. split; [intros Heq; right; lia | lia].
    + specialize (Hhigh ltac:(lia)). split; lia.
Qed.

Lemma handleAddrSubmit_then_autoFocus_witness :
  let a := mkAppView 0x0000 0x0000 in
  let current := currentExamAddress a in
  let requested := Z.land 0x20A7 0xFFF0 in
  let settled := viewAfterSubmit (Some 0x20A7) a in
  let start := memoryViewStartAddress settled in
  handleAddrSubmit setMemoryViewStartAddress (Some 0x20A7) a
  = setMemoryViewStartAddress requested a /\
  (requested mod 16 = 0 /\ requested <= 0x20A7 < requested + 16 /\
   0 <= requested <= 0xFFF0) /\
  currentExamAddress settled = current /\
  autoFocusEffect settled = settled /\
  start = (if (requested <=? current) && (current <? requested + 256)
           then requested
           else Z.max 0 (Z.land (current - 128) 0xFFF0)) /\
  (start <= 0x20A7 < start + 16 <-> start = requested) /\
  (start = requested <->
   requested <= current < requested + 256 \/
   (current < 128 /\ requested = 0xFF80 + 16 * (current / 16))).
Proof.
  apply (handleAddrSubmit_then_autoFocus 0x20A7 (mkAppView 0x0000 0x0000));
    [lia | simpl; lia | reflexivity].
Defined.

(** With the examined address at 0, the request for 20A7 is overridden and
    the view goes to FF80. With the examined address at 2005 and the view at
    1F80, the request for 2003 stands and the request for 20A7 is overridden
    by 1F80 again. *)
Example submit_overridden :
  memoryViewStartAddress (viewAfterSubmit (Some 0x20A7) (mkAppView 0x0000 0x0000)) = 0xFF80
  /\ memoryViewStartAddress (viewAfterSubmit (Some 0x2003) (mkAppView 0x2005 0x1F80)) = 0x2000
  /\ memoryViewStartAddress (viewAfterSubmit (Some 0x20A7) (mkAppView 0x2005 0x1F80)) = 0x1F80.
Proof. repeat split. Qed.

(** NaN, a negative number and a number above FFFF make no call. *)
Example handleAddrSubmit_no_call :
  handleAddrSubmit setMemoryViewStartAddress None (mkAppView 0x0005 0x2000)
  = mkAppView 0x0005 0x2000 /\
  handleAddrSubmit setMemoryViewStartAddress (Some (-1)) (mkAppView 0x0005 0x2000)
  = mkAppView 0x0005 0x2000 /\
  handleAddrSubmit setMemoryViewStartAddress (Some 0x10000) (mkAppView 0x0005 0x2000)
  = mkAppView 0x0005 0x2000.
Proof. repeat split. Qed.
